(** * sysprobe: a shallow embedding of the sampling core and its properties

    The development follows the C sources: [cpu.c] (tick snapshots, usage,
    capacity), [window.c]/[window.h] (the ring of recent samples),
    [state.c]/[state.h] (the two classifiers), [mem.c]/[mem.h] (the
    /proc/meminfo reader) and [main.c] (the per-tick record).

    Conventions.
    - [long] and [int] values are integers of [Z]; every [long] operation the
      code performs is written with its two's-complement wrap-around
      ([wrap64]).
    - [double] values are the kernel's binary64 floats ([PrimFloat.float]);
      the C operators [+ * / < >] are the IEEE 754 operations, and an integer
      converts to [double] by rounding to nearest even ([double_of_long]).
    - A C pointer that the code tests against [NULL] is an [option].
    - Undefined behaviour (an access outside an array, [fclose(NULL)]) is an
      explicit outcome, never a silently chosen value. *)

From Stdlib Require Import ZArith Lia Bool.
From Stdlib Require Import PrimFloat SpecFloat FloatOps.
From Stdlib Require Import Ascii String.
From Stdlib Require Import DecimalString DecimalN DecimalPos.
From stdpp Require Import base tactics option list.

Set Warnings "-inexact-float".
Local Open Scope Z_scope.

(* ===================================================================== *)
(** ** Machine arithmetic *)
(* ===================================================================== *)

Module C.

(** The range of a 64-bit [long]. *)
Definition LONG_MIN : Z := - 2 ^ 63.
Definition LONG_MAX : Z := 2 ^ 63 - 1.

Definition in_long (z : Z) : Prop := LONG_MIN <= z <= LONG_MAX.

(** Two's-complement reduction of an integer to a signed 64-bit value. *)
Definition wrap64 (z : Z) : Z := (z + 2 ^ 63) mod 2 ^ 64 - 2 ^ 63.

Definition add64 (a b : Z) : Z := wrap64 (a + b).
Definition sub64 (a b : Z) : Z := wrap64 (a - b).

(** [(double) z]: the binary64 value nearest to [z], ties to even. *)
Definition double_of_long (z : Z) : float :=
  SF2Prim (binary_normalize prec emax z 0 false).

(** [(int) z] for a [long] z: reduction to a signed 32-bit value. *)
Definition wrap32 (z : Z) : Z := (z + 2 ^ 31) mod 2 ^ 32 - 2 ^ 31.

(** What a call does: it returns a value, it runs into undefined behaviour
    (an access outside an array, [fclose(NULL)]), or the step budget of a
    modelled loop is used up before the loop ends. *)
Inductive outcome (A : Type) : Type :=
| Returns (a : A)
| Undefined
| Unfinished.
Arguments Returns {A} a.
Arguments Undefined {A}.
Arguments Unfinished {A}.

#[global] Instance outcome_ret : MRet outcome := @Returns.
#[global] Instance outcome_bind : MBind outcome := fun A B k m =>
  match m with
  | Returns a => k a
  | Undefined => Undefined
  | Unfinished => Unfinished
  end.

(** The part of the machine state the probe reads: the answer of
    [sysconf(_SC_NPROCESSORS_ONLN)] and the three files, each [None] when
    [fopen] returns [NULL] and its content otherwise. *)
Record env : Type := mk_env {
  nprocessors_onln : Z;
  cpuinfo_max_freq : option string;
  proc_stat : option string;
  proc_meminfo : option string
}.

End C.

Import C.

(* ===================================================================== *)
(** ** stdio.h, string.h: [fscanf] on a character stream, [strcmp] *)
(* ===================================================================== *)

Module Stdio.

(** [isspace] and [isdigit] in the C locale. *)
Definition isspace (c : ascii) : bool :=
  let n := N_of_ascii c in ((n =? 32) || ((9 <=? n) && (n <=? 13)))%N.

Definition isdigit (c : ascii) : bool :=
  let n := N_of_ascii c in ((48 <=? n) && (n <=? 57))%N.

Definition digit_val (c : ascii) : Z := Z.of_N (N_of_ascii c) - 48.

Fixpoint skip_ws (s : string) : string :=
  match s with
  | String c s' => if isspace c then skip_ws s' else s
  | EmptyString => s
  end.

(** At most [w] characters up to the next white space: the token [%ws]
    stores, and the stream after it. *)
Fixpoint take_token (w : nat) (s : string) : string * string :=
  match w, s with
  | S w', String c s' =>
      if isspace c then (EmptyString, s)
      else let '(tok, rest) := take_token w' s' in (String c tok, rest)
  | _, _ => (EmptyString, s)
  end.

Fixpoint scan_digits (s : string) (acc : Z) : Z * string :=
  match s with
  | String c s' =>
      if isdigit c then scan_digits s' (10 * acc + digit_val c) else (acc, s)
  | EmptyString => (acc, s)
  end.

(** A value outside the range of [long] is stored as the nearest bound, as
    [strtol] does. *)
Definition clamp_long (z : Z) : Z := Z.max LONG_MIN (Z.min LONG_MAX z).

(** [%ld] at a stream that starts with a non-space character: an optional
    sign and at least one decimal digit. *)
Definition scan_long (s : string) : option (Z * string) :=
  let '(neg, s1) :=
    match s with
    | String c r =>
        if Ascii.eqb c "-" then (true, r)
        else if Ascii.eqb c "+" then (false, r)
        else (false, s)
    | EmptyString => (false, s)
    end in
  match s1 with
  | String c _ =>
      if isdigit c then
        let '(v, rest) := scan_digits s1 0 in
        Some (clamp_long (if neg then - v else v), rest)
      else None
  | EmptyString => None
  end.

(** The directives of a format: white space, an ordinary character, [%ws]
    with its field width, and [%ld]. *)
Inductive directive : Type :=
| DWs
| DLit (c : ascii)
| DStr (w : nat)
| DLong.

Inductive value : Type :=
| VStr (s : string)
| VLong (z : Z).

Inductive status : Type := Complete | MatchingFailure | InputFailure.

(** The directives are executed in order; [got] are the items assigned so
    far. An input failure is the end of the stream where a directive needs a
    character; a matching failure leaves the offending character unread. *)
Fixpoint run (fmt : list directive) (inp : string) (got : list value)
  : status * list value * string :=
  match fmt with
  | [] => (Complete, got, inp)
  | DWs :: fmt' => run fmt' (skip_ws inp) got
  | DLit c :: fmt' =>
      match inp with
      | EmptyString => (InputFailure, got, inp)
      | String c' inp' =>
          if Ascii.eqb c c' then run fmt' inp' got
          else (MatchingFailure, got, inp)
      end
  | DStr w :: fmt' =>
      match skip_ws inp with
      | EmptyString => (InputFailure, got, EmptyString)
      | String _ _ as s =>
          let '(tok, rest) := take_token w s in
          run fmt' rest (got ++ [VStr tok])
      end
  | DLong :: fmt' =>
      match skip_ws inp with
      | EmptyString => (InputFailure, got, EmptyString)
      | String _ _ as s =>
          match scan_long s with
          | Some (z, rest) => run fmt' rest (got ++ [VLong z])
          | None => (MatchingFailure, got, s)
          end
      end
  end.

(** The items a format can assign, in order: a string for each [%ws], a
    [long] for each [%ld]. *)
Fixpoint fits (fmt : list directive) (vs : list value) : bool :=
  match vs with
  | [] => true
  | v :: vs' =>
      match fmt with
      | [] => false
      | DWs :: fmt' | DLit _ :: fmt' => fits fmt' vs
      | DStr _ :: fmt' =>
          match v with VStr _ => fits fmt' vs' | VLong _ => false end
      | DLong :: fmt' =>
          match v with VLong _ => fits fmt' vs' | VStr _ => false end
      end
  end.

(** The same, with the bounds on what is stored: a string of [%ws] has at
    most [w] characters, a [long] is within the bounds of its type. *)
Fixpoint within (fmt : list directive) (vs : list value) : bool :=
  match vs with
  | [] => true
  | v :: vs' =>
      match fmt with
      | [] => false
      | DWs :: fmt' | DLit _ :: fmt' => within fmt' vs
      | DStr w :: fmt' =>
          match v with
          | VStr s => (String.length s <=? w)%nat && within fmt' vs'
          | VLong _ => false
          end
      | DLong :: fmt' =>
          match v with
          | VLong z => (LONG_MIN <=? z) && (z <=? LONG_MAX) && within fmt' vs'
          | VStr _ => false
          end
      end
  end.

Definition EOF : Z := -1.

(** [fscanf]: its return value, the items it assigned (in the order of the
    pointer arguments) and the stream it leaves. *)
Definition fscanf (fmt : list directive) (f : string)
  : Z * list value * string :=
  let '(st, got, rest) := run fmt f [] in
  (match st, got with
   | InputFailure, [] => EOF
   | _, _ => Z.of_nat (length got)
   end, got, rest).

(** [fclose] is defined on an open stream only. *)
Definition fclose (f : option string) : outcome unit :=
  match f with
  | Some _ => Returns tt
  | None => Undefined
  end.

(** The C string held in a buffer ends at the first NUL. *)
Fixpoint cstr (s : string) : string :=
  match s with
  | String c s' => if Ascii.eqb c "000" then EmptyString else String c (cstr s')
  | EmptyString => EmptyString
  end.

(** [strcmp(a, b) == 0]. *)
Definition streq (a b : string) : bool := String.eqb (cstr a) (cstr b).

End Stdio.

(* ===================================================================== *)
(** ** cpu.h, cpu.c: tick snapshots and usage *)
(* ===================================================================== *)

Module Cpu.
Import Stdio.

Record cpu_capacity : Type := mk_cpu_capacity {
  cores : Z;
  max_freq_khz : Z
}.

Record cpu_stat : Type := mk_cpu_stat {
  user : Z;
  nice : Z;
  system : Z;
  idle : Z
}.

(** The four-field sum as the code computes it, left to right in [long]. *)
Definition total (s : cpu_stat) : Z :=
  add64 (add64 (add64 (user s) (nice s)) (system s)) (idle s).

Definition cpu_usage (prev curr : cpu_stat) : float :=
  let prev_idle := idle prev in
  let curr_idle := idle curr in
  let prev_total := total prev in
  let curr_total := total curr in
  let total_delta := sub64 curr_total prev_total in
  let idle_delta := sub64 curr_idle prev_idle in
  if total_delta =? 0 then 0%float
  else (100 * double_of_long (sub64 total_delta idle_delta)
        / double_of_long total_delta)%float.

(** The format ["%ld"]. *)
Definition fmt_freq : list directive := [DLong].

(** [read_cpu_capacity]: the return value, the structure behind [cap] and
    what was written to the standard output. [fclose(f)] comes after the
    [if]/[else], so it is reached with [f == NULL] when the file did not
    open. *)
Definition read_cpu_capacity (e : env) (cap : option cpu_capacity)
  : outcome (Z * option cpu_capacity * list string) :=
  match cap with
  | None => Returns (-1, None, [])
  | Some _ =>
      let cores := nprocessors_onln e in
      let cores := if cores <? 1 then 1 else cores in
      let c := {| cores := wrap32 cores; max_freq_khz := -1 |} in
      let f := cpuinfo_max_freq e in
      let '(c, out) :=
        match f with
        | None => (c, ["Frequency info is not exposed."%string])
        | Some s =>
            (match fscanf fmt_freq s with
             | (_, [VLong z], _) =>
                 {| cores := Cpu.cores c; max_freq_khz := z |}
             | _ => c
             end, [])
        end in
      _ ← fclose f;
      Returns (0, Some c, out)
  end.

(** The format ["cpu %ld %ld %ld %ld"]. *)
Definition fmt_stat : list directive :=
  [DLit "c"; DLit "p"; DLit "u"; DWs; DLong; DWs; DLong; DWs; DLong;
   DWs; DLong].

(** The items [fscanf] assigned are stored in the order user, nice, system,
    idle; a field whose item was not assigned keeps its value. *)
Definition assign_stat (got : list value) (out : cpu_stat) : cpu_stat :=
  match got with
  | VLong a :: VLong b :: VLong c :: VLong d :: _ =>
      {| user := a; nice := b; system := c; idle := d |}
  | VLong a :: VLong b :: VLong c :: _ =>
      {| user := a; nice := b; system := c; idle := idle out |}
  | VLong a :: VLong b :: _ =>
      {| user := a; nice := b; system := system out; idle := idle out |}
  | VLong a :: _ =>
      {| user := a; nice := nice out; system := system out; idle := idle out |}
  | _ => out
  end.

Definition read_cpu_stat (e : env) (out : cpu_stat) : Z * cpu_stat :=
  match proc_stat e with
  | None => (-1, out)
  | Some f =>
      let '(n, got, _) := fscanf fmt_stat f in
      (if n =? 4 then 0 else -1, assign_stat got out)
  end.

(** The four-field sum as an integer, and the snapshots [read_cpu_stat]
    delivers on a running system: counters that are not negative and whose
    sum is a [long]. *)
Definition sum4 (s : cpu_stat) : Z := user s + nice s + system s + idle s.

Definition ticks (s : cpu_stat) : Prop :=
  0 <= user s /\ 0 <= nice s /\ 0 <= system s /\ 0 <= idle s /\
  sum4 s <= LONG_MAX.

(** Componentwise shift of a snapshot, each counter staying a [long]. *)
Definition shift (d s : cpu_stat) : cpu_stat :=
  {| user := add64 (user s) (user d);
     nice := add64 (nice s) (nice d);
     system := add64 (system s) (system d);
     idle := add64 (idle s) (idle d) |}.

End Cpu.

(* ===================================================================== *)
(** ** mem.h: the memory snapshot *)
(* ===================================================================== *)

Module Mem.
Import Stdio.

Record mem_stat : Type := mk_mem_stat {
  mem_total_kb : Z;
  mem_avail_kb : Z;
  swap_total_kb : Z;
  swap_free_kb : Z
}.

Definition zero : mem_stat := mk_mem_stat 0 0 0 0.

(** The format ["%31s %ld %15s"]. *)
Definition fmt_kvu : list directive := [DStr 31; DWs; DLong; DWs; DStr 15].

(** The chain of [strcmp] tests of the loop body: the snapshot and the
    counter after one key/value pair. The counter starts at 0 and the loop
    ends when it is 4, so [cnt + 1] is far from the range of [int]. *)
Definition store (key : string) (value : Z) (cap : mem_stat) (cnt : Z)
  : mem_stat * Z :=
  if streq key "MemTotal:" then
    ({| mem_total_kb := value; mem_avail_kb := mem_avail_kb cap;
        swap_total_kb := swap_total_kb cap;
        swap_free_kb := swap_free_kb cap |}, cnt + 1)
  else if streq key "MemAvailable:" then
    ({| mem_total_kb := mem_total_kb cap; mem_avail_kb := value;
        swap_total_kb := swap_total_kb cap;
        swap_free_kb := swap_free_kb cap |}, cnt + 1)
  else if streq key "SwapTotal:" then
    ({| mem_total_kb := mem_total_kb cap; mem_avail_kb := mem_avail_kb cap;
        swap_total_kb := value;
        swap_free_kb := swap_free_kb cap |}, cnt + 1)
  else if streq key "SwapFree:" then
    ({| mem_total_kb := mem_total_kb cap; mem_avail_kb := mem_avail_kb cap;
        swap_total_kb := swap_total_kb cap;
        swap_free_kb := value |}, cnt + 1)
  else (cap, cnt).

(** The [while] loop on the stream [f], with a budget of [fuel] calls of
    [fscanf]. The loop goes on while the call returns 3, that is while all
    three items were assigned. It yields the snapshot, the counter and the
    stream left unread when the loop ends. *)
Fixpoint scan_loop (fuel : nat) (f : string) (cap : mem_stat) (cnt : Z)
  : outcome (mem_stat * Z * string) :=
  match fuel with
  | O => Unfinished
  | S fuel' =>
      match fscanf fmt_kvu f with
      | (_, [VStr key; VLong value; VStr _], rest) =>
          let '(cap', cnt') := store key value cap cnt in
          if cnt' =? 4 then Returns (cap', cnt', rest)
          else scan_loop fuel' rest cap' cnt'
      | (_, _, rest) => Returns (cap, cnt, rest)
      end
  end.

(** [read_mem_stat]: the return value and the structure behind [cap]. Every
    call of [fscanf] that returns 3 reads at least one character, so a budget
    of one call more than the stream has characters is never used up
    ([scan_loop_returns]). *)
Definition read_mem_stat (e : env) (cap : option mem_stat)
  : outcome (Z * option mem_stat) :=
  match cap with
  | None => Returns (-1, None)
  | Some _ =>
      match proc_meminfo e with
      | None => (* perror *) Returns (-1, Some zero)
      | Some f =>
          '(cap', _, _) ← scan_loop (S (String.length f)) f zero 0;
          _ ← fclose (Some f);
          Returns (0, Some cap')
      end
  end.

(** *** The key/value pairs of a stream (specification only) *)

(** All triples that successive calls of [fscanf] deliver on [f] until the
    first call that does not return 3, as (key, value) pairs. *)
Fixpoint triples (fuel : nat) (f : string) : list (string * Z) :=
  match fuel with
  | O => []
  | S fuel' =>
      match fscanf fmt_kvu f with
      | (_, [VStr key; VLong value; VStr _], rest) =>
          (key, value) :: triples fuel' rest
      | _ => []
      end
  end.

Definition pairs_of (f : string) : list (string * Z) :=
  triples (S (String.length f)) f.

Definition named (key : string) : bool :=
  streq key "MemTotal:" || streq key "MemAvailable:" ||
  streq key "SwapTotal:" || streq key "SwapFree:".

(** The pairs up to and including the one that brings the number of named
    keys to [4], starting with [cnt] of them seen. *)
Fixpoint upto4 (cnt : Z) (l : list (string * Z)) : list (string * Z) :=
  match l with
  | [] => []
  | (k, v) :: l' =>
      let cnt' := if named k then cnt + 1 else cnt in
      if cnt' =? 4 then [(k, v)] else (k, v) :: upto4 cnt' l'
  end.

(** The pairs the loop of [read_mem_stat] processes on the stream [f]. *)
Definition processed (f : string) : list (string * Z) :=
  upto4 0 (pairs_of f).

(** The snapshot after one pair. *)
Definition step (cap : mem_stat) (kv : string * Z) : mem_stat :=
  fst (store (fst kv) (snd kv) cap 0).

(** Is there a pair with this key, and are all four keys there? *)
Definition has_key (key : string) (l : list (string * Z)) : bool :=
  existsb (fun kv => streq (fst kv) key) l.

Definition found_all (l : list (string * Z)) : bool :=
  has_key "MemTotal:" l && has_key "MemAvailable:" l &&
  has_key "SwapTotal:" l && has_key "SwapFree:" l.

(** The number of pairs whose key satisfies [p]. *)
Fixpoint count_if (p : string -> bool) (l : list (string * Z)) : Z :=
  match l with
  | [] => 0
  | (k, _) :: l' => (if p k then 1 else 0) + count_if p l'
  end.

(** Which of the four tests a key passes; the four names differ, so a key
    passes at most one. *)
Inductive key_class (k : string) : Prop :=
| KTotal (_ : cstr k = "MemTotal:"%string)
| KAvail (_ : cstr k = "MemAvailable:"%string)
| KSwapTotal (_ : cstr k = "SwapTotal:"%string)
| KSwapFree (_ : cstr k = "SwapFree:"%string)
| KOther (_ : streq k "MemTotal:" = false)
         (_ : streq k "MemAvailable:" = false)
         (_ : streq k "SwapTotal:" = false)
         (_ : streq k "SwapFree:" = false).

(** The value of the last pair of [l] whose key is [key], 0 without one. *)
Definition last_value (key : string) (l : list (string * Z)) : Z :=
  fold_left (fun acc kv => if streq (fst kv) key then snd kv else acc) l 0.

End Mem.

(* ===================================================================== *)
(** ** state.h, state.c: the classifiers *)
(* ===================================================================== *)

Module State.
Import Mem.

Inductive sys_state : Type := SYS_OK | SYS_WARN | SYS_DANGER.

Definition sys_state_str (s : sys_state) : string :=
  match s with
  | SYS_OK => "ok"
  | SYS_WARN => "warn"
  | SYS_DANGER => "danger"
  end.

(** [avg > c] in C is [c < avg]; both are false on a NaN. *)
Definition cpu_state_from_avg (avg : float) : sys_state :=
  if (95 <? avg)%float then SYS_DANGER
  else if (85 <? avg)%float then SYS_WARN
  else SYS_OK.

Definition avail_ratio (c : mem_stat) : float :=
  (double_of_long (mem_avail_kb c) / double_of_long (mem_total_kb c))%float.

Definition swap_used (c : mem_stat) : float :=
  if 0 <? swap_total_kb c
  then (double_of_long (sub64 (swap_total_kb c) (swap_free_kb c))
        / double_of_long (swap_total_kb c))%float
  else 0%float.

Definition mem_state_from_capacity (cap : option mem_stat) : sys_state :=
  match cap with
  | None => SYS_OK
  | Some c =>
      if mem_total_kb c =? 0 then SYS_OK
      else if (avail_ratio c <? 0.05)%float then SYS_DANGER
      else if (avail_ratio c <? 0.1)%float || (80 <? swap_used c)%float
           then SYS_WARN
      else SYS_OK
  end.

(** The classifier as the specification words it, with the swap figure in
    percent: [100 * (swapTotalKb - swapFreeKb) / swapTotalKb]. *)
Definition swap_used_percent (c : mem_stat) : float :=
  if 0 <? swap_total_kb c
  then (100 * double_of_long (sub64 (swap_total_kb c) (swap_free_kb c))
        / double_of_long (swap_total_kb c))%float
  else 0%float.

Definition mem_state_spec (c : mem_stat) : sys_state :=
  if mem_total_kb c =? 0 then SYS_OK
  else if (avail_ratio c <? 0.05)%float then SYS_DANGER
  else if (avail_ratio c <? 0.1)%float || (80 <? swap_used_percent c)%float
       then SYS_WARN
  else SYS_OK.

End State.

(* ===================================================================== *)
(** ** window.h, window.c: the ring of recent samples *)
(* ===================================================================== *)

Module Window.

Definition CPU_WINDOW : Z := 10.

(** [samples] is the array [double samples[CPU_WINDOW]]; [index] and [count]
    are the two [int] fields. *)
Record cpu_window : Type := mk_cpu_window {
  samples : list float;
  index : Z;
  count : Z
}.

(** [cpu_window_init] writes the two integer fields and leaves the array as
    it finds it. *)
Definition cpu_window_init (w : cpu_window) : cpu_window :=
  {| samples := samples w; index := 0; count := 0 |}.

(** [samples[index] = value] is defined only for an index inside the array;
    there [index + 1] and [count + 1] stay far from the range of [int], and
    [%] on these non-negative operands is [Z.rem]. *)
Definition cpu_window_add (w : cpu_window) (value : float)
  : outcome cpu_window :=
  if decide (0 <= index w < CPU_WINDOW) then
    Returns
      {| samples := <[Z.to_nat (index w) := value]> (samples w);
         index := Z.rem (index w + 1) CPU_WINDOW;
         count := if count w <? CPU_WINDOW then count w + 1 else count w |}
  else Undefined.

(** The body of [for (int i = 0; i < w->count; i++) sum += w->samples[i]]
    with [n] iterations left; a read outside the array is undefined. *)
Fixpoint sum_loop (a : list float) (i n : nat) (sum : float)
  : outcome float :=
  match n with
  | O => Returns sum
  | S n' =>
      match a !! i with
      | Some x => sum_loop a (S i) n' (sum + x)%float
      | None => Undefined
      end
  end.

Definition cpu_window_avg (w : cpu_window) : outcome float :=
  sum ← sum_loop (samples w) 0 (Z.to_nat (count w)) 0%float;
  Returns (if count w =? 0 then 0%float
           else (sum / double_of_long (count w))%float).

(** Adding a list of values one after the other. *)
Fixpoint add_all (w : cpu_window) (vs : list float) : outcome cpu_window :=
  match vs with
  | [] => Returns w
  | v :: vs' => w' ← cpu_window_add w v; add_all w' vs'
  end.

(** The array has its declared size and both integers are in their range. *)
Definition wf (w : cpu_window) : Prop :=
  length (samples w) = Z.to_nat CPU_WINDOW /\
  0 <= index w < CPU_WINDOW /\
  0 <= count w <= CPU_WINDOW.

(** The sum the loop accumulates over a list of slots, in slot order. *)
Definition fsum (xs : list float) : float :=
  fold_left PrimFloat.add xs 0%float.

(** The last [n] elements of a history. *)
Definition lastn {A} (n : nat) (l : list A) : list A :=
  drop (length l - n) l.

(** [recent] is what the window holds: the slots in use are [recent],
    oldest first, rotated so that the oldest sample sits at [index] once the
    array is full; before that the slots in use are [recent] itself. *)
Definition holds (w : cpu_window) (recent : list float) : Prop :=
  exists older newer : list float,
    recent = older ++ newer /\
    take (Z.to_nat (count w)) (samples w) = newer ++ older /\
    length newer = Z.to_nat (index w) /\
    (count w < CPU_WINDOW -> older = []) /\
    Z.to_nat (count w) = length recent.

End Window.

(* ===================================================================== *)
(** ** main.c: one pass of the sampling loop *)
(* ===================================================================== *)

Module Main.
Import Stdio Cpu Mem State Window.

(** The arguments of the [printf] of one record, in the order of the
    format's fields. *)
Record report : Type := mk_report {
  ts : float;
  cpu : float;
  cpu_avg : float;
  mem_used : float;
  mem_avail : float;
  mem_swap_used : float;
  mem_swap_avail : float;
  CPU_STATE : string;
  MEM_STATE : string
}.

(** The variables of [main] that live across passes. *)
Record loop_state : Type := mk_loop_state {
  prev_cpu : cpu_stat;
  curr_cpu : cpu_stat;
  cpu_win : cpu_window;
  mem : mem_stat
}.

(** The record printed for a usage, an average, a snapshot and a time. *)
Definition emit (t usage avg_cpu : float) (m : mem_stat) : report :=
  {| ts := t;
     cpu := usage;
     cpu_avg := avg_cpu;
     mem_used :=
       (double_of_long (sub64 (mem_total_kb m) (mem_avail_kb m))
        / 1024 / 1024)%float;
     mem_avail := (double_of_long (mem_avail_kb m) / 1024 / 1024)%float;
     mem_swap_used :=
       (double_of_long (sub64 (swap_total_kb m) (swap_free_kb m))
        / 1024 / 1024)%float;
     mem_swap_avail := (double_of_long (swap_free_kb m) / 1024)%float;
     CPU_STATE := sys_state_str (cpu_state_from_avg avg_cpu);
     MEM_STATE := sys_state_str (mem_state_from_capacity (Some m)) |}.

(** The four figures of the start-up banner. *)
Definition banner (m : mem_stat) : float * float * float * float :=
  ((double_of_long (mem_total_kb m) / 1024 / 1024)%float,
   (double_of_long (mem_avail_kb m) / 1024 / 1024)%float,
   (double_of_long (swap_total_kb m) / 1024 / 1024)%float,
   (double_of_long (swap_free_kb m) / 1024 / 1024)%float).

(** One pass of [while (running)] after the [sleep]: [e] is what the files
    hold during the pass and [t] what [now_sec] answers. The pass prints a
    record unless [read_cpu_stat] fails. *)
Definition tick (e : env) (t : float) (st : loop_state)
  : outcome (loop_state * option report) :=
  let '(rc, curr) := read_cpu_stat e (curr_cpu st) in
  if negb (rc =? 0) then
    Returns ({| prev_cpu := prev_cpu st; curr_cpu := curr;
                cpu_win := cpu_win st; mem := mem st |}, None)
  else
    let usage := cpu_usage (prev_cpu st) curr in
    win ← cpu_window_add (cpu_win st) usage;
    '(_, cap) ← read_mem_stat e (Some (mem st));
    let m := default (mem st) cap in
    avg_cpu ← cpu_window_avg win;
    Returns ({| prev_cpu := curr; curr_cpu := curr;
                cpu_win := win; mem := m |},
             Some (emit t usage avg_cpu m)).

(** [struct cpu_stat x = {0}]. *)
Definition no_ticks : cpu_stat := mk_cpu_stat 0 0 0 0.

(** Does [read_cpu_stat] succeed in this pass? *)
Definition cpu_read_ok (p : env * float) : bool :=
  fst (read_cpu_stat (fst p) no_ticks) =? 0.

(** The passes of [while (running)]: one element of [passes] for each pass
    made before the flag is found cleared, with what the files hold during
    the pass and what [now_sec] answers. The loop yields the variables as
    the last pass leaves them and the records printed, in order. *)
Fixpoint loop (passes : list (env * float)) (st : loop_state)
  : outcome (loop_state * list report) :=
  match passes with
  | [] => Returns (st, [])
  | (e, t) :: ps =>
      '(st1, r) ← tick e t st;
      '(st2, rs) ← loop ps st1;
      Returns (st2, match r with Some x => x :: rs | None => rs end)
  end.

(** What [main] prints before the loop: the core count, the maximal
    frequency in GHz when it is known, and the four memory figures. *)
Record startup : Type := mk_startup {
  cpu_cores : Z;
  cpu_ghz : option float;
  mem_banner : float * float * float * float
}.

(** [main]: the return value, the start-up output and the records. [e0] is
    what the machine shows at start-up; [cap0], [mem0] and [win0] are what
    the three local variables hold before they are written. *)
Definition main (e0 : env) (cap0 : cpu_capacity) (mem0 : mem_stat)
    (win0 : cpu_window) (passes : list (env * float))
  : outcome (Z * startup * list report) :=
  '(_, cap, _) ← read_cpu_capacity e0 (Some cap0);
  let cap := default cap0 cap in
  let ghz :=
    if 0 <? max_freq_khz cap
    then Some (double_of_long (max_freq_khz cap) / 1000000)%float
    else None in
  '(_, m) ← read_mem_stat e0 (Some mem0);
  let m := default mem0 m in
  (* signal(SIGINT, handle_sigint) *)
  let win := cpu_window_init win0 in
  let '(_, prev) := read_cpu_stat e0 no_ticks in
  '(_, recs) ← loop passes {| prev_cpu := prev; curr_cpu := no_ticks;
                              cpu_win := win; mem := m |};
  Returns (0, {| cpu_cores := cores cap; cpu_ghz := ghz;
                 mem_banner := banner m |}, recs).

(** Two windows with the same content in use, and two states of the loop
    that differ in nothing the later passes read. *)
Definition win_alike (w1 w2 : cpu_window) : Prop :=
  wf w1 /\ wf w2 /\ index w1 = index w2 /\
  exists recent, holds w1 recent /\ holds w2 recent.

Definition alike (st1 st2 : loop_state) : Prop :=
  prev_cpu st1 = prev_cpu st2 /\ mem st1 = mem st2 /\
  win_alike (cpu_win st1) (cpu_win st2).

End Main.

(* ===================================================================== *)
(** ** Sample inputs *)
(* ===================================================================== *)

Module Samples.

Definition nl : string := String "010" EmptyString.

(** A /proc/meminfo with the four keys among others, and lines after the
    last of them. *)
Definition meminfo : string :=
  ("MemTotal:        4194304 kB" ++ nl ++
   "MemFree:          524288 kB" ++ nl ++
   "MemAvailable:    2097152 kB" ++ nl ++
   "Buffers:           10240 kB" ++ nl ++
   "SwapTotal:       2097152 kB" ++ nl ++
   "SwapFree:        1048576 kB" ++ nl ++
   "Dirty:                64 kB" ++ nl ++
   "Mapped:           204800 kB" ++ nl)%string.

(** A /proc/meminfo without the swap lines. *)
Definition meminfo_no_swap : string :=
  ("MemTotal:        4194304 kB" ++ nl ++
   "MemAvailable:    2097152 kB" ++ nl)%string.

(** A /proc/stat: the aggregate line and a per-core line. *)
Definition stat : string :=
  ("cpu  170 5 5 920 0 0 0" ++ nl ++ "cpu0 170 5 5 920 0 0 0" ++ nl)%string.

(** A machine with 8 processors and no cpufreq directory. *)
Definition machine : env :=
  {| nprocessors_onln := 8;
     cpuinfo_max_freq := None;
     proc_stat := Some stat;
     proc_meminfo := Some meminfo |}.

End Samples.

(* ===================================================================== *)
(** ** The text of the files (specification only) *)
(* ===================================================================== *)

Module Render.
Import Stdio.
Local Open Scope list_scope.

(** The decimal numeral of a natural number, without leading zeros. *)
Definition dec (n : N) : string := NilZero.string_of_uint (N.to_uint n).

Fixpoint spaces (k : nat) : string :=
  match k with
  | O => EmptyString
  | S k' => String " " (spaces k')
  end.

Fixpoint all_chars (p : ascii -> bool) (s : string) : bool :=
  match s with
  | EmptyString => true
  | String c s' => p c && all_chars p s'
  end.

(** A word as the kernel writes a key: not empty, and free of white space
    and of NUL. *)
Definition word (s : string) : bool :=
  negb (String.eqb s EmptyString) &&
  all_chars (fun c => negb (isspace c) && negb (Ascii.eqb c "000")) s.

(** A stream a number can be followed by: empty, or starting with a
    character that is no digit. *)
Definition no_digit_ahead (s : string) : bool :=
  match s with
  | EmptyString => true
  | String c _ => negb (isdigit c)
  end.

(** The aggregate line of /proc/stat: ["cpu"], at least one space, the four
    counters separated by single spaces, and whatever follows. *)
Definition stat_text (pad : nat) (u n s i : N) (tail : string) : string :=
  ("cpu" ++ spaces (S pad) ++ dec u ++ " " ++ dec n ++ " " ++ dec s ++ " "
   ++ dec i ++ tail)%string.

(** A line of /proc/meminfo: the key, at least one space, the value, a space
    and the unit [kB]. *)
Record meminfo_line : Type := mk_line {
  key : string;
  pad : nat;
  value : N
}.

Definition line_text (l : meminfo_line) : string :=
  (key l ++ spaces (S (pad l)) ++ dec (value l) ++ " kB" ++ Samples.nl)%string.

Fixpoint meminfo_text (ls : list meminfo_line) : string :=
  match ls with
  | [] => EmptyString
  | l :: ls' => (line_text l ++ meminfo_text ls')%string
  end.

(** The pair a line stands for; the value as [%ld] stores it. *)
Definition pair_of (l : meminfo_line) : string * Z :=
  (key l, clamp_long (Z.of_N (value l))).

(** A stream a word can be followed by: empty, or starting with white
    space. *)
Definition space_ahead (s : string) : bool :=
  match s with
  | EmptyString => true
  | String c _ => isspace c
  end.

(** A line whose key is a word that fits the buffer of [read_mem_stat]. *)
Definition line_ok (l : meminfo_line) : Prop :=
  word (key l) = true /\ (String.length (key l) <= 31)%nat.

(** The field of a snapshot that belongs to a key. *)
Definition field_of (k : string) (m : Mem.mem_stat) : Z :=
  if String.eqb k "MemTotal:" then Mem.mem_total_kb m
  else if String.eqb k "MemAvailable:" then Mem.mem_avail_kb m
  else if String.eqb k "SwapTotal:" then Mem.swap_total_kb m
  else if String.eqb k "SwapFree:" then Mem.swap_free_kb m
  else 0.

Definition four_keys : list string :=
  ["MemTotal:"; "MemAvailable:"; "SwapTotal:"; "SwapFree:"]%string.

End Render.

Import Stdio Cpu Mem State Window Main.


(* ===================================================================== *)
(** * Properties *)
(* ===================================================================== *)

(** ** Machine arithmetic *)

Lemma wrap64_in_long (z : Z) : in_long (wrap64 z).
Proof.
  unfold in_long, wrap64, LONG_MIN, LONG_MAX.
  pose proof (Z.mod_pos_bound (z + 2 ^ 63) (2 ^ 64) eq_refl). lia.
Qed.

Lemma wrap64_id (z : Z) : in_long z -> wrap64 z = z.
Proof.
  unfold in_long, wrap64, LONG_MIN, LONG_MAX. intros H.
  rewrite Z.mod_small; lia.
Qed.

Lemma wrap64_eqm (z : Z) : eqm (2 ^ 64) (wrap64 z) z.
Proof.
  unfold eqm, wrap64.
  rewrite Zminus_mod, Zmod_mod, <- Zminus_mod. f_equal. lia.
Qed.

Lemma eqm_wrap64 (a b : Z) : eqm (2 ^ 64) a b -> wrap64 a = wrap64 b.
Proof.
  unfold eqm, wrap64. intros H.
  rewrite (Zplus_mod a), (Zplus_mod b), H. reflexivity.
Qed.

(** The conversion is exact on small integers and rounds to nearest, ties
    to even, beyond 2^53. *)
Lemma double_of_long_samples :
  double_of_long 0 = 0%float /\
  double_of_long (-3) = (-3)%float /\
  double_of_long 1048576 = 1048576%float /\
  double_of_long (2 ^ 53 + 1) = 9007199254740992%float /\
  double_of_long (2 ^ 53 + 3) = 9007199254740996%float /\
  double_of_long LONG_MAX = 9223372036854775808%float.
Proof. vm_compute. repeat split. Qed.

#[local] Instance eqm64_equivalence : Equivalence (eqm (2 ^ 64)) :=
  eqm_setoid (2 ^ 64).
#[local] Instance add_eqm64
  : Proper (eqm (2 ^ 64) ==> eqm (2 ^ 64) ==> eqm (2 ^ 64)) Z.add :=
  Zplus_eqm (2 ^ 64).
#[local] Instance sub_eqm64
  : Proper (eqm (2 ^ 64) ==> eqm (2 ^ 64) ==> eqm (2 ^ 64)) Z.sub :=
  Zminus_eqm (2 ^ 64).

#[local] Instance wrap64_proper : Proper (eqm (2 ^ 64) ==> eqm (2 ^ 64)) wrap64.
Proof. intros a b H. rewrite (eqm_wrap64 a b H). reflexivity. Qed.

Lemma sub64_zero_iff (a b : Z) :
  in_long a -> in_long b -> sub64 a b = 0 <-> a = b.
Proof.
  unfold sub64, in_long, LONG_MIN, LONG_MAX. intros Ha Hb. split.
  - intros H. pose proof (wrap64_eqm (a - b)) as E.
    rewrite H in E. unfold eqm in E. symmetry in E.
    rewrite Zmod_0_l in E.
    apply Z.mod_divide in E; [|lia]. destruct E as [k E]. lia.
  - intros ->. rewrite Z.sub_diag. reflexivity.
Qed.

(** ** cpu_usage *)

Lemma total_in_long (s : cpu_stat) : in_long (total s).
Proof. apply wrap64_in_long. Qed.

Lemma total_ticks (s : cpu_stat) : ticks s -> total s = sum4 s.
Proof.
  unfold ticks, sum4, total, add64, LONG_MAX. intros (Hu & Hn & Hs & Hi & Hsum).
  assert (E1 : wrap64 (user s + nice s) = user s + nice s)
    by (apply wrap64_id; unfold in_long, LONG_MIN, LONG_MAX; lia).
  rewrite E1.
  assert (E2 : wrap64 (user s + nice s + system s)
               = user s + nice s + system s)
    by (apply wrap64_id; unfold in_long, LONG_MIN, LONG_MAX; lia).
  rewrite E2.
  apply wrap64_id; unfold in_long, LONG_MIN, LONG_MAX; lia.
Qed.

(** On every pair of snapshots the code returns 0 when the two sums it
    computed are equal, and the quotient otherwise. *)
Lemma cpu_usage_cases (prev curr : cpu_stat) :
  let total_delta := sub64 (total curr) (total prev) in
  let idle_delta := sub64 (idle curr) (idle prev) in
  (total curr = total prev -> cpu_usage prev curr = 0%float) /\
  (total curr <> total prev ->
   cpu_usage prev curr =
     (100 * double_of_long (sub64 total_delta idle_delta)
      / double_of_long total_delta)%float).
Proof.
  intros total_delta idle_delta.
  pose proof (sub64_zero_iff (total curr) (total prev)
                (total_in_long curr) (total_in_long prev)) as Hz.
  unfold cpu_usage. fold total_delta. fold idle_delta.
  destruct (Z.eqb_spec total_delta 0) as [E | E]; split; intros H;
    try reflexivity.
  - apply Hz in E. contradiction.
  - apply Hz in H. contradiction.
Qed.

(** C2. For tick snapshots [prev] and [curr] (counters that are not negative
    and whose sum is a [long]), with [deltaTotal] the difference of the
    four-field sums and [deltaIdle = curr.idle - prev.idle] as integers:
    [cpu_usage] returns exactly 0.0 when [deltaTotal = 0], and
    [100.0 * (deltaTotal - deltaIdle) / deltaTotal] in binary64 otherwise.
    The value is not clamped: there are tick snapshots on which it is above
    100 and tick snapshots on which it is below 0. *)
Theorem cpu_usage_spec :
  (forall prev curr : cpu_stat,
     ticks prev -> ticks curr ->
     let deltaTotal := sum4 curr - sum4 prev in
     let deltaIdle := idle curr - idle prev in
     (deltaTotal = 0 -> cpu_usage prev curr = 0%float) /\
     (deltaTotal <> 0 ->
      cpu_usage prev curr =
        (100 * double_of_long (deltaTotal - deltaIdle)
         / double_of_long deltaTotal)%float)) /\
  (exists prev curr, ticks prev /\ ticks curr /\
     (100 <? cpu_usage prev curr)%float = true) /\
  (exists prev curr, ticks prev /\ ticks curr /\
     (cpu_usage prev curr <? 0)%float = true).
Proof.
  split; [|split].
  - intros prev curr Hp Hc deltaTotal deltaIdle.
    pose proof (cpu_usage_cases prev curr) as [H0 H1].
    rewrite (total_ticks _ Hp), (total_ticks _ Hc) in H0, H1.
    assert (Ht : sub64 (sum4 curr) (sum4 prev) = deltaTotal).
    { unfold ticks, sum4, LONG_MAX in Hp, Hc. unfold deltaTotal, sum4, sub64.
      apply wrap64_id. unfold in_long, LONG_MIN, LONG_MAX. lia. }
    assert (Hi : sub64 (idle curr) (idle prev) = deltaIdle).
    { unfold ticks, sum4, LONG_MAX in Hp, Hc. unfold deltaIdle, sub64.
      apply wrap64_id. unfold in_long, LONG_MIN, LONG_MAX. lia. }
    assert (Hb : sub64 deltaTotal deltaIdle = deltaTotal - deltaIdle).
    { unfold ticks, sum4, LONG_MAX in Hp, Hc.
      unfold deltaTotal, deltaIdle, sum4, sub64.
      apply wrap64_id. unfold in_long, LONG_MIN, LONG_MAX. lia. }
    cbv zeta in H1. rewrite Ht, Hi, Hb in H1.
    split.
    + intros E. apply H0. unfold deltaTotal in E. lia.
    + intros E. apply H1. unfold deltaTotal in E. lia.
  - exists (mk_cpu_stat 0 0 0 10), (mk_cpu_stat 20 0 0 0).
    unfold ticks, sum4, LONG_MAX. cbn. repeat split; try lia.
  - exists (mk_cpu_stat 10 0 0 0), (mk_cpu_stat 0 0 0 20).
    unfold ticks, sum4, LONG_MAX. cbn. repeat split; try lia.
Qed.

Lemma cpu_usage_spec_witness :
  cpu_usage (mk_cpu_stat 100 0 0 900) (mk_cpu_stat 170 5 5 920) = 80%float.
Proof.
  assert (Hp : ticks (mk_cpu_stat 100 0 0 900))
    by (unfold ticks, sum4, LONG_MAX; cbn; lia).
  assert (Hc : ticks (mk_cpu_stat 170 5 5 920))
    by (unfold ticks, sum4, LONG_MAX; cbn; lia).
  destruct (proj1 cpu_usage_spec _ _ Hp Hc) as [_ H].
  rewrite H; [reflexivity | unfold sum4; cbn; lia].
Defined.

(** C10. [cpu_usage] depends only on the componentwise differences of the
    two snapshots: shifting both by the same [d] leaves the result
    unchanged. *)
Theorem cpu_usage_shift (d prev curr : cpu_stat) :
  cpu_usage (shift d prev) (shift d curr) = cpu_usage prev curr.
Proof.
  assert (Ht : sub64 (total (shift d curr)) (total (shift d prev))
               = sub64 (total curr) (total prev)).
  { unfold sub64, total, shift, add64; cbn [user nice system idle].
    apply eqm_wrap64. rewrite !wrap64_eqm.
    apply (f_equal (fun z => z mod 2 ^ 64)). lia. }
  assert (Hi : sub64 (idle (shift d curr)) (idle (shift d prev))
               = sub64 (idle curr) (idle prev)).
  { unfold sub64, shift, add64; cbn [idle].
    apply eqm_wrap64. rewrite !wrap64_eqm.
    apply (f_equal (fun z => z mod 2 ^ 64)). lia. }
  unfold cpu_usage. rewrite Ht, Hi. reflexivity.
Qed.

(** ** The classifiers *)

(** C6. [cpu_state_from_avg] compares strictly: above 95.0 it answers
    DANGER, otherwise above 85.0 it answers WARN, otherwise OK; so 85.0 is
    OK, 85.1 is WARN, 95.0 is WARN and 95.1 is DANGER. *)
Theorem cpu_state_spec (avg : float) :
  ((95 <? avg)%float = true -> cpu_state_from_avg avg = SYS_DANGER) /\
  ((95 <? avg)%float = false -> (85 <? avg)%float = true ->
   cpu_state_from_avg avg = SYS_WARN) /\
  ((95 <? avg)%float = false -> (85 <? avg)%float = false ->
   cpu_state_from_avg avg = SYS_OK) /\
  cpu_state_from_avg 85 = SYS_OK /\
  cpu_state_from_avg 85.1 = SYS_WARN /\
  cpu_state_from_avg 95 = SYS_WARN /\
  cpu_state_from_avg 95.1 = SYS_DANGER.
Proof.
  unfold cpu_state_from_avg.
  repeat split; try reflexivity.
  - intros ->. reflexivity.
  - intros -> ->. reflexivity.
  - intros -> ->. reflexivity.
Qed.

Lemma cpu_state_spec_witness : cpu_state_from_avg 90.5 = SYS_WARN.
Proof.
  apply (proj1 (proj2 (cpu_state_spec 90.5))); reflexivity.
Defined.

(** A NaN average is above no threshold. *)
Lemma cpu_state_nan : cpu_state_from_avg nan = SYS_OK.
Proof. reflexivity. Qed.

(** C8. On a snapshot with [mem_total_kb = 0] the classifier answers OK,
    whatever the three other fields hold. *)
Theorem mem_state_total_zero (c : mem_stat) :
  mem_total_kb c = 0 -> mem_state_from_capacity (Some c) = SYS_OK.
Proof.
  intros H. unfold mem_state_from_capacity. rewrite H. reflexivity.
Qed.

Lemma mem_state_total_zero_witness :
  mem_state_from_capacity (Some (mk_mem_stat 0 7 100 1)) = SYS_OK.
Proof.
  apply (mem_state_total_zero (mk_mem_stat 0 7 100 1)). reflexivity.
Defined.

(** A null pointer is answered with OK as well. *)
Lemma mem_state_null : mem_state_from_capacity None = SYS_OK.
Proof. reflexivity. Qed.

(** What the code computes on a snapshot with a total: the two ratio tests
    of the specification, and a swap test on the used fraction (a number
    between 0 and 1 on a consistent snapshot) against 80. *)
Lemma mem_state_cases (c : mem_stat) :
  mem_total_kb c <> 0 ->
  mem_state_from_capacity (Some c) =
    if (avail_ratio c <? 0.05)%float then SYS_DANGER
    else if (avail_ratio c <? 0.1)%float then SYS_WARN
    else if (80 <? swap_used c)%float then SYS_WARN
    else SYS_OK.
Proof.
  intros H. unfold mem_state_from_capacity.
  destruct (Z.eqb_spec (mem_total_kb c) 0) as [E | _]; [contradiction|].
  destruct (avail_ratio c <? 0.05)%float; [reflexivity|].
  destruct (avail_ratio c <? 0.1)%float; reflexivity.
Qed.

(** C1 (the swap trigger). On the snapshot totalKb=100, availableKb=50,
    swapTotalKb=100, swapFreeKb=10 the code compares the used fraction 0.9
    with 80 and answers OK, where the classifier of the specification, with
    the figure in percent (90), answers WARN; the two ratio cases agree with
    the specification (4 of 100 is DANGER, 9 of 100 is WARN). *)
Theorem mem_state_swap_fraction :
  let c := mk_mem_stat 100 50 100 10 in
  swap_used c = 0.9%float /\
  swap_used_percent c = 90%float /\
  mem_state_from_capacity (Some c) = SYS_OK /\
  mem_state_spec c = SYS_WARN /\
  mem_state_from_capacity (Some (mk_mem_stat 100 4 0 0)) = SYS_DANGER /\
  mem_state_from_capacity (Some (mk_mem_stat 100 9 0 0)) = SYS_WARN.
Proof. vm_compute. repeat split. Qed.

(** ** read_cpu_capacity *)

(** C3 (the missing file). When the frequency file does not open, the call
    goes through the branch that prints the notice and then reaches
    [fclose(f)] with a null [f]: it does not return, for any answer of the
    processor-count query. *)
Theorem read_cpu_capacity_no_freq_file
  (n : Z) (stat meminfo : option string) (c : cpu_capacity) :
  read_cpu_capacity (mk_env n None stat meminfo) (Some c) = Undefined.
Proof. reflexivity. Qed.

(** With the file present the call succeeds, and the core count is at least
    1 whenever the answer of the query fits an [int]. *)
Lemma read_cpu_capacity_with_freq_file
  (e : env) (f : string) (c : cpu_capacity) :
  cpuinfo_max_freq e = Some f ->
  nprocessors_onln e <= 2 ^ 31 - 1 ->
  exists cap,
    read_cpu_capacity e (Some c) = Returns (0, Some cap, []) /\
    1 <= cores cap /\
    (cores cap = 1 <-> nprocessors_onln e <= 1).
Proof.
  intros Hf Hn. unfold read_cpu_capacity. rewrite Hf.
  set (n := if nprocessors_onln e <? 1 then 1 else nprocessors_onln e).
  assert (Hc : wrap32 n = n).
  { unfold wrap32, n. destruct (Z.ltb_spec (nprocessors_onln e) 1);
      rewrite Z.mod_small; lia. }
  assert (Hn1 : 1 <= n /\ (n = 1 <-> nprocessors_onln e <= 1)).
  { unfold n. destruct (Z.ltb_spec (nprocessors_onln e) 1); lia. }
  destruct (fscanf fmt_freq f) as [[r got] rest].
  destruct got as [|[s|z] [|? ?]]; cbn [fclose mbind outcome_bind];
    (eexists; split; [reflexivity|]); cbn [cores]; rewrite Hc; exact Hn1.
Qed.

(** ** The printed record *)

Lemma emit_swap (t usage avg_cpu : float) (m : mem_stat) :
  mem_swap_used (emit t usage avg_cpu m) =
    (double_of_long (sub64 (swap_total_kb m) (swap_free_kb m))
     / 1024 / 1024)%float /\
  mem_swap_avail (emit t usage avg_cpu m) =
    (double_of_long (swap_free_kb m) / 1024)%float.
Proof. split; reflexivity. Qed.

(** C4 (the free-swap figure). With 2 GB of swap of which 1 GB
    (1048576 kB) is free, the record carries 1.0 as used swap and 1024.0 as
    free swap: the free figure is divided by 1024 once, where the used
    figure, the memory figures and the banner's free-swap figure are divided
    twice. *)
Theorem emit_swap_free_in_mb (t usage avg_cpu : float) :
  let m := mk_mem_stat 4194304 2097152 2097152 1048576 in
  let r := emit t usage avg_cpu m in
  mem_swap_used r = 1%float /\
  mem_swap_avail r = 1024%float /\
  mem_avail r = 2%float /\
  snd (banner m) = 1%float.
Proof. vm_compute. repeat split. Qed.

(** ** The window *)

Lemma lastn_short {A} (n : nat) (l : list A) :
  (length l <= n)%nat -> lastn n l = l.
Proof.
  intros H. unfold lastn. replace (length l - n)%nat with 0%nat by lia.
  reflexivity.
Qed.

Lemma lastn_app_long {A} (n : nat) (p l : list A) :
  (n <= length l)%nat -> lastn n (p ++ l) = lastn n l.
Proof.
  intros H. unfold lastn. rewrite drop_app, length_app.
  rewrite drop_ge by lia. cbn. f_equal. lia.
Qed.

Lemma length_lastn {A} (n : nat) (l : list A) :
  length (lastn n l) = Nat.min (length l) n.
Proof. unfold lastn. rewrite length_drop. lia. Qed.

Lemma lastn_lastn_app {A} (n : nat) (l k : list A) :
  lastn n (lastn n l ++ k) = lastn n (l ++ k).
Proof.
  destruct (le_lt_dec (length l) n) as [Hle | Hgt].
  - rewrite (lastn_short n l) by exact Hle. reflexivity.
  - rewrite <- (take_drop (length l - n) l) at 2.
    fold (lastn n l). rewrite <- app_assoc.
    rewrite (lastn_app_long n (take (length l - n) l) (lastn n l ++ k));
      [reflexivity|].
    rewrite length_app, length_lastn. lia.
Qed.

(** The loop of [cpu_window_avg] adds the slots [i], [i+1], ... in order. *)
Lemma sum_loop_take (a : list float) (n i : nat) (sum : float) :
  (i + n <= length a)%nat ->
  sum_loop a i n sum = Returns (fold_left PrimFloat.add (take n (drop i a)) sum).
Proof.
  revert i sum. induction n as [|n IH]; intros i sum H; cbn [sum_loop].
  - reflexivity.
  - destruct (lookup_lt_is_Some_2 a i) as [x Hx]; [lia|].
    rewrite Hx, (drop_S _ _ _ Hx). cbn [take fold_left].
    apply IH. lia.
Qed.

Lemma cpu_window_avg_wf (w : cpu_window) :
  wf w ->
  cpu_window_avg w =
    Returns (if count w =? 0 then 0%float
             else (fsum (take (Z.to_nat (count w)) (samples w))
                   / double_of_long (count w))%float).
Proof.
  intros (Hlen & _ & Hc). unfold cpu_window_avg, CPU_WINDOW in *.
  rewrite sum_loop_take by (rewrite Hlen; cbn; lia).
  reflexivity.
Qed.

Lemma cpu_window_init_holds (w0 : cpu_window) :
  length (samples w0) = 10%nat ->
  wf (cpu_window_init w0) /\ holds (cpu_window_init w0) [].
Proof.
  intros H. split.
  - unfold wf, CPU_WINDOW. cbn. split; [exact H | lia].
  - exists [], []. cbn. repeat split; reflexivity.
Qed.

(** One [cpu_window_add] on a well-formed window: it is defined, keeps the
    window well formed, and the window then holds the last 10 of what it
    held followed by the new value. *)
Lemma cpu_window_add_holds (w : cpu_window) (recent : list float) (v : float) :
  wf w -> holds w recent ->
  exists w', cpu_window_add w v = Returns w' /\ wf w' /\
             holds w' (lastn 10 (recent ++ [v])).
Proof.
  intros (Hlen & Hi & Hc) (older & newer & Hrec & Htake & Hnew & Hold & Hcnt).
  unfold cpu_window_add, CPU_WINDOW in *.
  change (Z.to_nat 10) with 10%nat in Hlen.
  destruct (decide (0 <= index w < 10)) as [_ | Hn]; [|lia].
  eexists. split; [reflexivity|].
  assert (Hrem : Z.rem (index w + 1) 10 =
                 if decide (index w + 1 < 10) then index w + 1 else 0).
  { destruct (decide (index w + 1 < 10)).
    - apply Z.rem_small. lia.
    - replace (index w + 1) with 10 by lia. reflexivity. }
  split.
  - unfold wf, CPU_WINDOW. cbn [samples index count].
    rewrite length_insert, Hrem.
    split; [exact Hlen|].
    destruct (decide (index w + 1 < 10)), (Z.ltb_spec (count w) 10); lia.
  - unfold holds, CPU_WINDOW. cbn [samples index count]. rewrite Hrem.
    destruct (Z.ltb_spec (count w) 10) as [Hlt | Hge].
    + (* the array is not full yet: the new value goes after the others *)
      specialize (Hold Hlt). subst older. cbn [app] in Hrec. subst newer.
      rewrite app_nil_r in Htake.
      assert (Hidx : Z.to_nat (index w) = Z.to_nat (count w)) by lia.
      assert (Ht : take (Z.to_nat (count w + 1))
                     (<[Z.to_nat (index w) := v]> (samples w))
                   = recent ++ [v]).
      { replace (Z.to_nat (count w + 1)) with (S (Z.to_nat (count w))) by lia.
        rewrite (take_S_r _ _ v).
        - rewrite take_insert_ge by lia. rewrite Htake. reflexivity.
        - rewrite Hidx. apply list_lookup_insert_eq. lia. }
      rewrite lastn_short by (rewrite length_app; cbn; lia).
      destruct (decide (index w + 1 < 10)) as [Hs | Hs].
      * exists [], (recent ++ [v]).
        rewrite Ht, app_nil_r, length_app. cbn.
        repeat split; try reflexivity; lia.
      * exists (recent ++ [v]), [].
        rewrite Ht, app_nil_r, length_app. cbn.
        repeat split; try reflexivity; lia.
    + (* the array is full: the new value replaces the oldest *)
      assert (Hc10 : Z.to_nat (count w) = 10%nat) by lia.
      rewrite Hc10 in *.
      rewrite take_ge in Htake by lia.
      assert (Hlr : (length older + length newer = 10)%nat)
        by (rewrite Hcnt, Hrec, length_app; reflexivity).
      destruct older as [|a older']; [cbn in Hlr; lia|].
      assert (Hs : <[Z.to_nat (index w) := v]> (samples w)
                   = newer ++ v :: older').
      { rewrite Htake, <- Hnew.
        replace (length newer) with (length newer + 0)%nat by lia.
        rewrite insert_app_r. reflexivity. }
      assert (Hl : lastn 10 (recent ++ [v]) = older' ++ newer ++ [v]).
      { rewrite Hrec.
        replace (((a :: older') ++ newer) ++ [v])
          with ([a] ++ (older' ++ newer ++ [v]))
          by (cbn [app]; rewrite app_assoc; reflexivity).
        rewrite lastn_app_long
          by (rewrite !length_app; cbn in *; lia).
        apply lastn_short. rewrite !length_app; cbn in *; lia. }
      rewrite Hl, take_ge by (rewrite length_insert; lia). rewrite Hs.
      cbn [length] in Hlr.
      destruct (decide (index w + 1 < 10)) as [Hsm | Hsm].
      * exists older', (newer ++ [v]).
        rewrite <- !app_assoc, !length_app. cbn.
        repeat split; try reflexivity; lia.
      * assert (older' = []) by (destruct older'; [reflexivity | cbn in Hlr; lia]).
        subst older'.
        exists (newer ++ [v]), [].
        rewrite app_nil_r, !length_app. cbn.
        repeat split; try reflexivity; lia.
Qed.

Lemma add_all_holds (vs : list float) :
  forall (w : cpu_window) (recent : list float),
    wf w -> holds w recent ->
    exists w', add_all w vs = Returns w' /\ wf w' /\
               holds w' (lastn 10 (recent ++ vs)).
Proof.
  induction vs as [|v vs IH]; intros w recent Hwf Hh.
  - exists w. rewrite app_nil_r. cbn [add_all].
    split; [reflexivity|]. split; [exact Hwf|].
    rewrite lastn_short; [exact Hh|].
    destruct Hwf as (_ & _ & Hc).
    destruct Hh as (_ & _ & _ & _ & _ & _ & Hcnt).
    unfold CPU_WINDOW in Hc. lia.
  - destruct (cpu_window_add_holds w recent v Hwf Hh) as (w1 & E1 & Hwf1 & Hh1).
    destruct (IH w1 _ Hwf1 Hh1) as (w' & E' & Hwf' & Hh').
    exists w'. cbn [add_all]. rewrite E1. cbn. split; [exact E'|].
    split; [exact Hwf'|].
    rewrite lastn_lastn_app, <- app_assoc in Hh'. exact Hh'.
Qed.

(** A window whose array has its 10 slots, slot by slot. *)
Ltac ten_slots w H :=
  destruct w as [a idx cnt]; cbn [samples] in H;
  do 10 (destruct a as [|? a]; [discriminate H|]);
  destruct a; [clear H | discriminate H].

(** C7. On every well-formed window [cpu_window_avg] returns the sum of the
    first [count] slots divided by [count], and 0.0 when [count] is 0. After
    any sequence of additions to an initialised window these slots are the
    most recent values added (the last 10, or all of them when there are
    fewer). A freshly initialised window averages 0.0, and after adding 10,
    20 and 30 the average is 20.0. *)
Theorem cpu_window_avg_spec :
  (forall w : cpu_window,
     wf w ->
     cpu_window_avg w =
       Returns (if count w =? 0 then 0%float
                else (fsum (take (Z.to_nat (count w)) (samples w))
                      / double_of_long (count w))%float)) /\
  (forall (w0 : cpu_window) (vs : list float),
     length (samples w0) = 10%nat ->
     exists w,
       add_all (cpu_window_init w0) vs = Returns w /\ wf w /\
       count w = Z.of_nat (Nat.min (length vs) 10) /\
       take (Z.to_nat (count w)) (samples w) ≡ₚ lastn 10 vs) /\
  (forall w0 : cpu_window,
     cpu_window_avg (cpu_window_init w0) = Returns 0%float) /\
  (forall w0 : cpu_window,
     length (samples w0) = 10%nat ->
     add_all (cpu_window_init w0) [10; 20; 30]%float ≫= cpu_window_avg
     = Returns 20%float).
Proof.
  split; [exact cpu_window_avg_wf|]. split; [|split].
  - intros w0 vs Hlen.
    destruct (cpu_window_init_holds w0 Hlen) as [Hwf Hh].
    destruct (add_all_holds vs _ _ Hwf Hh) as (w & E & Hwf' & Hh').
    cbn [app] in Hh'.
    exists w. split; [exact E|]. split; [exact Hwf'|].
    destruct Hh' as (older & newer & Hrec & Htake & _ & _ & Hcnt).
    split.
    + destruct Hwf' as (_ & _ & Hc). rewrite length_lastn in Hcnt. lia.
    + rewrite Htake, Hrec. apply Permutation_app_comm.
  - intros w0. reflexivity.
  - intros w0 Hlen. ten_slots w0 Hlen. vm_compute. reflexivity.
Qed.

Lemma cpu_window_avg_spec_witness :
  cpu_window_avg (mk_cpu_window (replicate 10 50%float) 3 2)
  = Returns 50%float.
Proof.
  rewrite (proj1 cpu_window_avg_spec).
  - vm_compute. reflexivity.
  - unfold wf, CPU_WINDOW. cbn. lia.
Defined.

(** C5. After [cpu_window_init], adding the 11 values 0, 1, ..., 10 to a
    window of capacity 10 leaves the array holding 10, 1, 2, ..., 9: the
    values 1..10, the first value 0 being overwritten. All 10 slots count,
    and the average is 5.5. *)
Theorem cpu_window_evicts_first (w0 : cpu_window) :
  length (samples w0) = 10%nat ->
  exists w,
    add_all (cpu_window_init w0) [0; 1; 2; 3; 4; 5; 6; 7; 8; 9; 10]%float
    = Returns w /\
    samples w = [10; 1; 2; 3; 4; 5; 6; 7; 8; 9]%float /\
    samples w ≡ₚ [1; 2; 3; 4; 5; 6; 7; 8; 9; 10]%float /\
    count w = CPU_WINDOW /\
    cpu_window_avg w = Returns 5.5%float.
Proof.
  intros Hlen. ten_slots w0 Hlen.
  eexists. split; [vm_compute; reflexivity|].
  cbn [samples count].
  split; [reflexivity|]. split; [|split].
  - apply (Permutation_cons_append [1; 2; 3; 4; 5; 6; 7; 8; 9]%float).
  - reflexivity.
  - vm_compute. reflexivity.
Qed.

Lemma cpu_window_evicts_first_witness :
  exists w,
    add_all (cpu_window_init (mk_cpu_window (replicate 10 0%float) 7 7))
      [0; 1; 2; 3; 4; 5; 6; 7; 8; 9; 10]%float
    = Returns w /\
    samples w = [10; 1; 2; 3; 4; 5; 6; 7; 8; 9]%float /\
    samples w ≡ₚ [1; 2; 3; 4; 5; 6; 7; 8; 9; 10]%float /\
    count w = CPU_WINDOW /\
    cpu_window_avg w = Returns 5.5%float.
Proof.
  apply (cpu_window_evicts_first (mk_cpu_window (replicate 10 0%float) 7 7)).
  reflexivity.
Defined.

(** ** fscanf *)

Lemma skip_ws_length (s : string) :
  (String.length (skip_ws s) <= String.length s)%nat.
Proof.
  induction s as [|c s IH]; cbn; [lia|].
  destruct (isspace c); cbn; lia.
Qed.

Lemma skip_ws_head (s : string) (c : ascii) (s' : string) :
  skip_ws s = String c s' -> isspace c = false.
Proof.
  induction s as [|a s IH]; cbn; [discriminate|].
  destruct (isspace a) eqn:E; [exact IH|].
  intros [= <- <-]. exact E.
Qed.

Lemma take_token_length (w : nat) (s : string) :
  (String.length (snd (take_token w s)) <= String.length s)%nat.
Proof.
  revert s. induction w as [|w IH]; intros [|c s]; cbn; try lia.
  destruct (isspace c); cbn; [lia|].
  specialize (IH s). destruct (take_token w s) as [tok rest]. cbn in *. lia.
Qed.

Lemma take_token_progress (w : nat) (c : ascii) (s : string) :
  isspace c = false ->
  (String.length (snd (take_token (S w) (String c s)))
   < String.length (String c s))%nat.
Proof.
  intros H. cbn. rewrite H.
  pose proof (take_token_length w s) as L.
  destruct (take_token w s) as [tok rest]. cbn in *. lia.
Qed.

Lemma scan_digits_length (s : string) (acc : Z) :
  (String.length (snd (scan_digits s acc)) <= String.length s)%nat.
Proof.
  revert acc. induction s as [|c s IH]; intros acc; cbn; [lia|].
  destruct (isdigit c); cbn; [|lia].
  specialize (IH (10 * acc + digit_val c)). lia.
Qed.

Lemma scan_long_length (s : string) (z : Z) (rest : string) :
  scan_long s = Some (z, rest) ->
  (String.length rest <= String.length s)%nat.
Proof.
  unfold scan_long.
  assert (D : forall (neg : bool) (s1 : string),
             (String.length s1 <= String.length s)%nat ->
             match s1 with
             | String c _ =>
                 if isdigit c then
                   let '(v, rest) := scan_digits s1 0 in
                   Some (clamp_long (if neg then - v else v), rest)
                 else None
             | EmptyString => None
             end = Some (z, rest) ->
             (String.length rest <= String.length s)%nat).
  { intros neg s1 L. destruct s1 as [|c s1]; [discriminate|].
    destruct (isdigit c); [|discriminate].
    pose proof (scan_digits_length (String c s1) 0) as L'.
    destruct (scan_digits (String c s1) 0) as [v r]. cbn [snd] in L'.
    intros [= _ <-]. lia. }
  destruct s as [|c r]; [discriminate|].
  destruct (Ascii.eqb c "-"); [apply (D true r); cbn; lia|].
  destruct (Ascii.eqb c "+");
    [apply (D false r) | apply (D false (String c r))]; cbn; lia.
Qed.

(** A call of [fscanf] never gives characters back to the stream. *)
Lemma run_length (fmt : list directive) :
  forall inp got st got' rest,
    run fmt inp got = (st, got', rest) ->
    (String.length rest <= String.length inp)%nat.
Proof.
  induction fmt as [|d fmt IH]; intros inp got st got' rest; cbn [run].
  - intros [= _ _ <-]. lia.
  - destruct d as [|c|w|].
    + intros H. apply IH in H. pose proof (skip_ws_length inp). lia.
    + destruct inp as [|c' inp]; [intros [= _ _ <-]; lia|].
      destruct (Ascii.eqb c c'); [|intros [= _ _ <-]; lia].
      intros H. apply IH in H. cbn. lia.
    + pose proof (skip_ws_length inp) as L.
      destruct (skip_ws inp) as [|c' s']; [intros [= _ _ <-]; cbn; lia|].
      pose proof (take_token_length w (String c' s')) as L'.
      destruct (take_token w (String c' s')) as [tok r]. cbn [snd] in L'.
      intros H. apply IH in H. lia.
    + pose proof (skip_ws_length inp) as L.
      destruct (skip_ws inp) as [|c' s']; [intros [= _ _ <-]; cbn; lia|].
      destruct (scan_long (String c' s')) as [[z r]|] eqn:E;
        [|intros [= _ _ <-]; lia].
      apply scan_long_length in E.
      intros H. apply IH in H. lia.
Qed.

(** A call whose format starts with [%ws] and that assigns an item reads at
    least one character. *)
Lemma run_str_progress (w : nat) (fmt : list directive) (f : string)
    st got rest :
  run (DStr (S w) :: fmt) f [] = (st, got, rest) -> got <> [] ->
  (String.length rest < String.length f)%nat.
Proof.
  cbn [run].
  pose proof (skip_ws_length f) as L.
  destruct (skip_ws f) as [|c s'] eqn:E.
  - intros [= _ <- _] H. contradiction.
  - apply skip_ws_head in E.
    pose proof (take_token_progress w c s' E) as P.
    destruct (take_token (S w) (String c s')) as [tok r]. cbn [snd] in P.
    intros R _. apply run_length in R. lia.
Qed.

Lemma fscanf_kvu_progress (f : string) n got rest :
  fscanf fmt_kvu f = (n, got, rest) -> got <> [] ->
  (String.length rest < String.length f)%nat.
Proof.
  unfold fscanf, fmt_kvu.
  destruct (run _ f []) as [[st g] r] eqn:R.
  intros [= _ <- <-] H. exact (run_str_progress _ _ _ _ _ _ R H).
Qed.

Lemma fits_nil (fmt : list directive) : fits fmt [] = true.
Proof. destruct fmt; reflexivity. Qed.

(** The items assigned by a call extend those assigned before it, by items
    of the kinds the format asks for. *)
Lemma run_fits (fmt : list directive) :
  forall inp got st got' rest,
    run fmt inp got = (st, got', rest) ->
    exists more, got' = got ++ more /\ fits fmt more = true.
Proof.
  induction fmt as [|d fmt IH]; intros inp got st got' rest; cbn [run].
  - intros [= _ <- _]. exists []. rewrite app_nil_r. split; reflexivity.
  - assert (Stop : forall st0 r0,
               (st0, got, r0) = (st, got', rest) ->
               exists more, got' = got ++ more /\ fits (d :: fmt) more = true).
    { intros st0 r0 [= _ <- _]. exists []. rewrite app_nil_r.
      split; [reflexivity | apply fits_nil]. }
    destruct d as [|c|w|].
    + intros H. destruct (IH _ _ _ _ _ H) as (more & -> & F).
      exists more. split; [reflexivity|]. destruct more; [reflexivity | exact F].
    + destruct inp as [|c' inp]; [apply Stop|].
      destruct (Ascii.eqb c c'); [|apply Stop].
      intros H. destruct (IH _ _ _ _ _ H) as (more & -> & F).
      exists more. split; [reflexivity|]. destruct more; [reflexivity | exact F].
    + destruct (skip_ws inp) as [|c' s']; [apply Stop|].
      destruct (take_token w (String c' s')) as [tok r].
      intros H. destruct (IH _ _ _ _ _ H) as (more & -> & F).
      exists (VStr tok :: more). rewrite <- app_assoc. split; [reflexivity | exact F].
    + destruct (skip_ws inp) as [|c' s']; [apply Stop|].
      destruct (scan_long (String c' s')) as [[z r]|]; [|apply Stop].
      intros H. destruct (IH _ _ _ _ _ H) as (more & -> & F).
      exists (VLong z :: more). rewrite <- app_assoc. split; [reflexivity | exact F].
Qed.

(** With the format of [read_mem_stat], the call returns 3 exactly when it
    assigned a key, a value and a unit. *)
Lemma fscanf_kvu_ret (f : string) n got rest :
  fscanf fmt_kvu f = (n, got, rest) ->
  n = 3 <-> exists key value unit_, got = [VStr key; VLong value; VStr unit_].
Proof.
  unfold fscanf.
  destruct (run fmt_kvu f []) as [[st g] r] eqn:R.
  destruct (run_fits _ _ _ _ _ _ R) as (more & -> & F). cbn [app] in *.
  intros [= <- <- _].
  destruct more as [|[k|?] [|[?|v] [|[u|?] [|? ?]]]]; try discriminate F.
  - split; [destruct st; discriminate | intros (? & ? & ? & [=])].
  - split; [destruct st; discriminate | intros (? & ? & ? & [=])].
  - split; [destruct st; discriminate | intros (? & ? & ? & [=])].
  - split; [intros _; eauto | destruct st; reflexivity].
Qed.

(** ** read_mem_stat *)

Lemma classify_key (k : string) : key_class k.
Proof.
  destruct (String.eqb_spec (cstr k) "MemTotal:"); [now apply KTotal|].
  destruct (String.eqb_spec (cstr k) "MemAvailable:"); [now apply KAvail|].
  destruct (String.eqb_spec (cstr k) "SwapTotal:"); [now apply KSwapTotal|].
  destruct (String.eqb_spec (cstr k) "SwapFree:"); [now apply KSwapFree|].
  apply KOther; unfold streq; apply String.eqb_neq; assumption.
Qed.

(** Case analysis on the key of a pair, with every [strcmp] test decided. *)
Ltac by_key k :=
  destruct (classify_key k) as [E | E | E | E | E1 E2 E3 E4];
  unfold step, store, named, streq in *; cbn [fst snd] in *;
  [rewrite E | rewrite E | rewrite E | rewrite E
   | unfold streq in E1, E2, E3, E4; rewrite ?E1, ?E2, ?E3, ?E4];
  cbn.

Lemma store_fst (k : string) (v : Z) (cap : mem_stat) (cnt : Z) :
  fst (store k v cap cnt) = step cap (k, v).
Proof. by_key k; reflexivity. Qed.

Lemma store_snd (k : string) (v : Z) (cap : mem_stat) (cnt : Z) :
  snd (store k v cap cnt) = if named k then cnt + 1 else cnt.
Proof. by_key k; reflexivity. Qed.

(** The loop ends within its budget, and the snapshot it leaves is the one
    built from the pairs up to the fourth named key. *)
Lemma scan_loop_returns (fuel : nat) :
  forall (f : string) (cap : mem_stat) (cnt : Z),
    (String.length f < fuel)%nat ->
    exists cnt' rest,
      scan_loop fuel f cap cnt =
        Returns (fold_left step (upto4 cnt (triples fuel f)) cap, cnt', rest).
Proof.
  induction fuel as [|fuel IH]; intros f cap cnt Hf; [lia|].
  cbn [scan_loop triples].
  destruct (fscanf fmt_kvu f) as [[n got] rest] eqn:F.
  destruct got as [|[k|?] [|[?|v] [|[u|?] [|? ?]]]];
    try (exists cnt, rest; reflexivity).
  assert (P : (String.length rest < String.length f)%nat)
    by (apply (fscanf_kvu_progress _ _ _ _ F); discriminate).
  cbn [upto4].
  pose proof (store_fst k v cap cnt) as S1.
  pose proof (store_snd k v cap cnt) as S2.
  destruct (store k v cap cnt) as [cap' cnt']. cbn [fst snd] in S1, S2.
  subst cap' cnt'.
  destruct ((if named k then cnt + 1 else cnt) =? 4).
  - eexists _, rest. reflexivity.
  - destruct (IH rest (step cap (k, v)) (if named k then cnt + 1 else cnt))
      as (cnt' & rest' & E); [lia|].
    exists cnt', rest'. rewrite E. reflexivity.
Qed.

Lemma fold_step_fields (l : list (string * Z)) :
  forall cap : mem_stat,
    let pick key field :=
      fold_left (fun acc kv => if streq (fst kv) key then snd kv else acc)
        l (field cap) in
    fold_left step l cap =
      {| mem_total_kb := pick "MemTotal:"%string mem_total_kb;
         mem_avail_kb := pick "MemAvailable:"%string mem_avail_kb;
         swap_total_kb := pick "SwapTotal:"%string swap_total_kb;
         swap_free_kb := pick "SwapFree:"%string swap_free_kb |}.
Proof.
  induction l as [|[k v] l IH]; intros cap; cbn zeta.
  - destruct cap; reflexivity.
  - cbn [fold_left]. rewrite IH. cbn zeta. cbn [fst snd].
    by_key k; reflexivity.
Qed.

Lemma last_value_absent (key : string) (l : list (string * Z)) :
  has_key key l = false -> last_value key l = 0.
Proof.
  unfold has_key, last_value. generalize 0.
  induction l as [|[k v] l IH]; intros acc;
    cbn [existsb fold_left fst snd]; [reflexivity|].
  destruct (streq k key); cbn [orb]; [discriminate|]. apply IH.
Qed.

Lemma upto4_prefix (l : list (string * Z)) :
  forall cnt, upto4 cnt l `prefix_of` l.
Proof.
  induction l as [|[k v] l IH]; intros cnt; cbn [upto4]; [reflexivity|].
  destruct ((if named k then cnt + 1 else cnt) =? 4).
  - exists l. reflexivity.
  - apply prefix_cons, IH.
Qed.

(** Before the loop stops, fewer than four named keys were counted. *)
Lemma upto4_proper_prefix (l : list (string * Z)) :
  forall cnt pre post,
    cnt < 4 -> upto4 cnt l = pre ++ post -> post <> [] ->
    cnt + count_if named pre < 4.
Proof.
  induction l as [|[k v] l IH]; intros cnt pre post Hc; cbn [upto4].
  - destruct pre, post; try discriminate. contradiction.
  - destruct pre as [|[k' v'] pre]; [intros; cbn; lia|].
    destruct (Z.eqb_spec (if named k then cnt + 1 else cnt) 4) as [E | E].
    + intros [= <- <- H]. destruct pre, post; try discriminate. contradiction.
    + intros [= <- <- H] Hp. cbn [count_if].
      assert (Hc' : (if named k then cnt + 1 else cnt) < 4)
        by (destruct (named k); lia).
      pose proof (IH _ _ _ Hc' H Hp). destruct (named k); lia.
Qed.

Lemma count_if_nonneg (p : string -> bool) (l : list (string * Z)) :
  0 <= count_if p l.
Proof.
  induction l as [|[k v] l IH]; cbn; [lia|]. destruct (p k); lia.
Qed.

Lemma has_key_count (key : string) (l : list (string * Z)) :
  has_key key l = true -> 1 <= count_if (fun k => streq k key) l.
Proof.
  unfold has_key.
  induction l as [|[k v] l IH]; cbn [existsb count_if fst]; [discriminate|].
  pose proof (count_if_nonneg (fun k => streq k key) l).
  destruct (streq k key); cbn [orb]; [lia|]. intros H'. apply IH in H'. lia.
Qed.

Lemma count_named_split (l : list (string * Z)) :
  count_if named l =
    count_if (fun k => streq k "MemTotal:") l +
    count_if (fun k => streq k "MemAvailable:") l +
    count_if (fun k => streq k "SwapTotal:") l +
    count_if (fun k => streq k "SwapFree:") l.
Proof.
  induction l as [|[k v] l IH]; cbn [count_if]; [reflexivity|].
  rewrite IH. by_key k; lia.
Qed.

Lemma found_all_count (l : list (string * Z)) :
  found_all l = true -> 4 <= count_if named l.
Proof.
  unfold found_all. rewrite !andb_true_iff. intros [[[H1 H2] H3] H4].
  apply has_key_count in H1, H2, H3, H4.
  rewrite count_named_split. lia.
Qed.

(** When the file opens the call returns 0 with the snapshot built from the
    processed pairs. *)
Lemma read_mem_stat_open (e : env) (c : mem_stat) (f : string) :
  proc_meminfo e = Some f ->
  read_mem_stat e (Some c) =
    Returns (0, Some (fold_left step (processed f) zero)).
Proof.
  intros Hf. unfold read_mem_stat. rewrite Hf.
  destruct (scan_loop_returns (S (String.length f)) f zero 0)
    as (cnt' & rest & E); [lia|].
  rewrite E. reflexivity.
Qed.

(** C9. [read_mem_stat] fails exactly when /proc/meminfo does not open.
    When it opens, the call returns 0 whatever the content is; each field
    holds the value of the last processed pair with its key, and 0 when no
    processed pair has that key; the processed pairs are an initial part of
    the pairs of the stream, and nothing is processed after all four keys
    have been found. *)
Theorem read_mem_stat_spec (e : env) (c : mem_stat) :
  ((exists m, read_mem_stat e (Some c) = Returns (-1, m)) <->
   proc_meminfo e = None) /\
  (forall f : string,
     proc_meminfo e = Some f ->
     let l := processed f in
     read_mem_stat e (Some c) =
       Returns (0, Some {| mem_total_kb := last_value "MemTotal:" l;
                           mem_avail_kb := last_value "MemAvailable:" l;
                           swap_total_kb := last_value "SwapTotal:" l;
                           swap_free_kb := last_value "SwapFree:" l |}) /\
     (forall key, has_key key l = false -> last_value key l = 0) /\
     l `prefix_of` pairs_of f /\
     (forall pre post, l = pre ++ post -> found_all pre = true -> post = [])).
Proof.
  split.
  - split.
    + intros [m H]. destruct (proc_meminfo e) as [f|] eqn:Hf; [|reflexivity].
      rewrite (read_mem_stat_open e c f Hf) in H. discriminate H.
    + intros Hf. exists (Some zero). unfold read_mem_stat. rewrite Hf.
      reflexivity.
  - intros f Hf l. split; [|split; [|split]].
    + rewrite (read_mem_stat_open e c f Hf). fold l.
      rewrite fold_step_fields. reflexivity.
    + intros key. apply last_value_absent.
    + apply upto4_prefix.
    + intros pre post Hl Hall.
      destruct post as [|p post]; [reflexivity|]. exfalso.
      pose proof (upto4_proper_prefix (pairs_of f) 0 pre (p :: post)) as H.
      pose proof (found_all_count pre Hall).
      unfold l, processed in Hl.
      specialize (H ltac:(lia) Hl ltac:(discriminate)). lia.
Qed.

Lemma read_mem_stat_spec_witness :
  read_mem_stat Samples.machine (Some zero) =
    Returns (0, Some (mk_mem_stat 4194304 2097152 2097152 1048576)).
Proof.
  destruct (proj2 (read_mem_stat_spec Samples.machine zero)
              Samples.meminfo eq_refl) as [H _].
  rewrite H. vm_compute. reflexivity.
Defined.

(** On the sample file the loop stops at the fourth key: the two lines after
    [SwapFree:] are pairs of the stream that are not processed. Without the
    swap lines the two swap fields stay 0 and the call still succeeds. *)
Lemma read_mem_stat_samples :
  length (pairs_of Samples.meminfo) = 8%nat /\
  length (processed Samples.meminfo) = 6%nat /\
  found_all (processed Samples.meminfo) = true /\
  read_mem_stat
    (mk_env 8 None None (Some Samples.meminfo_no_swap)) (Some zero)
  = Returns (0, Some (mk_mem_stat 4194304 2097152 0 0)) /\
  read_mem_stat (mk_env 8 None None None) (Some zero)
  = Returns (-1, Some zero).
Proof. vm_compute. repeat split. Qed.

(** ** One pass of the loop *)

(** A pass on the sample machine, from a zero previous snapshot and a fresh
    window: usage 16.36..., 2 GB of memory available, 1 GB of swap used,
    and the free swap printed as 1024. *)
Lemma tick_sample (t : float) (w0 : cpu_window) :
  length (samples w0) = 10%nat ->
  exists st r,
    tick Samples.machine t
      (mk_loop_state (mk_cpu_stat 0 0 0 0) (mk_cpu_stat 0 0 0 0)
         (cpu_window_init w0) zero)
    = Returns (st, Some r) /\
    prev_cpu st = mk_cpu_stat 170 5 5 920 /\
    mem st = mk_mem_stat 4194304 2097152 2097152 1048576 /\
    cpu r = cpu_avg r /\
    mem_avail r = 2%float /\
    mem_swap_used r = 1%float /\
    mem_swap_avail r = 1024%float /\
    MEM_STATE r = "ok"%string.
Proof.
  intros H. ten_slots w0 H.
  eexists _, _. split; [vm_compute; reflexivity|].
  vm_compute. repeat split.
Qed.

Lemma cpu_window_add_wf (w : cpu_window) (v : float) :
  wf w -> exists w', cpu_window_add w v = Returns w' /\ wf w'.
Proof.
  intros (Hlen & Hi & Hc). unfold cpu_window_add, wf, CPU_WINDOW in *.
  destruct (decide (0 <= index w < 10)) as [_ | Hn]; [|lia].
  eexists. split; [reflexivity|]. cbn [samples index count].
  rewrite length_insert. split; [exact Hlen|].
  assert (0 <= Z.rem (index w + 1) 10 < 10).
  { destruct (decide (index w + 1 < 10)).
    - rewrite Z.rem_small; lia.
    - replace (index w + 1) with 10 by lia.
      change (Z.rem 10 10) with 0. lia. }
  destruct (Z.ltb_spec (count w) 10); lia.
Qed.

Lemma read_mem_stat_returns (e : env) (cap : option mem_stat) :
  exists r m, read_mem_stat e cap = Returns (r, m) /\
              (is_Some cap -> is_Some m).
Proof.
  destruct cap as [c|].
  - destruct (proc_meminfo e) as [f|] eqn:Hf.
    + eexists _, _. split; [exact (read_mem_stat_open e c f Hf)|].
      intros _; eexists; reflexivity.
    + exists (-1), (Some zero). unfold read_mem_stat. rewrite Hf.
      split; [reflexivity | intros _; eexists; reflexivity].
  - exists (-1), None. split; [reflexivity | intros [? [=]]].
Qed.

(** A pass of the loop on a well-formed window returns, keeps the window
    well formed, and a record it prints is [emit] on the snapshot the pass
    stores: its free-swap figure is [swap_free_kb / 1024.0]. *)
Lemma tick_returns (e : env) (t : float) (st : loop_state) :
  wf (cpu_win st) ->
  exists st' r,
    tick e t st = Returns (st', r) /\ wf (cpu_win st') /\
    forall rep, r = Some rep ->
      prev_cpu st' = curr_cpu st' /\
      rep = emit t (cpu rep) (cpu_avg rep) (mem st') /\
      mem_swap_avail rep = (double_of_long (swap_free_kb (mem st')) / 1024)%float.
Proof.
  intros Hwf. unfold tick.
  destruct (read_cpu_stat e (curr_cpu st)) as [rc curr].
  destruct (rc =? 0); cbn [negb].
  - destruct (cpu_window_add_wf (cpu_win st) (cpu_usage (prev_cpu st) curr) Hwf)
      as (win & Ea & Hwin).
    rewrite Ea. cbn [mbind outcome_bind].
    destruct (read_mem_stat_returns e (Some (mem st))) as (r & m & Em & _).
    rewrite Em. cbn [mbind outcome_bind].
    rewrite (cpu_window_avg_wf win Hwin). cbn [mbind outcome_bind].
    generalize (cpu_usage (prev_cpu st) curr). intros usage.
    generalize (if count win =? 0 then 0%float
                else (fsum (take (Z.to_nat (count win)) (samples win))
                      / double_of_long (count win))%float).
    intros avg_cpu.
    eexists _, _. split; [reflexivity|]. cbn [cpu_win prev_cpu curr_cpu mem].
    split; [exact Hwin|].
    intros rep [= <-]. cbn [emit cpu cpu_avg mem_swap_avail].
    split; [reflexivity|]. split; reflexivity.
  - eexists _, _. split; [reflexivity|]. cbn [cpu_win].
    split; [exact Hwf | intros rep [=]].
Qed.

(* ===================================================================== *)
(** * Further properties *)
(* ===================================================================== *)

(** ** Decimal numerals and [%ld] *)

(** The value [scan_digits] accumulates over the digits of [d]. *)
Lemma scan_digits_uint (d : Decimal.uint) :
  forall (rest : string) (acc : positive),
    Render.no_digit_ahead rest = true ->
    scan_digits (NilEmpty.string_of_uint d ++ rest) (Z.pos acc)
    = (Z.pos (Pos.of_uint_acc d acc), rest).
Proof.
  induction d; intros rest acc Hr;
    cbn [NilEmpty.string_of_uint String.append scan_digits Pos.of_uint_acc];
    try (change (isdigit _) with true; cbn match;
         rewrite <- IHd by exact Hr; f_equal; unfold digit_val; cbn; lia).
  destruct rest as [|c rest]; [reflexivity|].
  cbn in Hr. cbn [scan_digits]. destruct (isdigit c); [discriminate|reflexivity].
Qed.

Lemma scan_digits_string_of_uint (d : Decimal.uint) (rest : string) :
  Render.no_digit_ahead rest = true ->
  scan_digits (NilEmpty.string_of_uint d ++ rest) 0
  = (Z.of_N (Pos.of_uint d), rest).
Proof.
  intros Hr. induction d;
    cbn [NilEmpty.string_of_uint String.append scan_digits Pos.of_uint];
    try (change (isdigit _) with true; cbn match;
         first [ exact IHd
               | apply (scan_digits_uint d rest _ Hr) ]).
  destruct rest as [|c rest]; [reflexivity|].
  cbn in Hr. cbn [scan_digits]. destruct (isdigit c); [discriminate|reflexivity].
Qed.

Lemma dec_nonnil (n : N) :
  Render.dec n = NilEmpty.string_of_uint (N.to_uint n) /\
  N.to_uint n <> Decimal.Nil.
Proof.
  unfold Render.dec, NilZero.string_of_uint.
  destruct n as [|p]; [split; [reflexivity | discriminate]|].
  cbn [N.to_uint]. pose proof (DecimalPos.Unsigned.to_uint_nonnil p) as H.
  destruct (Pos.to_uint p); [contradiction | ..]; split; (reflexivity || exact H).
Qed.

Lemma scan_digits_dec (n : N) (rest : string) :
  Render.no_digit_ahead rest = true ->
  scan_digits (Render.dec n ++ rest) 0 = (Z.of_N n, rest).
Proof.
  intros Hr. rewrite (proj1 (dec_nonnil n)).
  rewrite (scan_digits_string_of_uint _ _ Hr).
  change (Pos.of_uint (N.to_uint n)) with (N.of_uint (N.to_uint n)).
  rewrite DecimalN.Unsigned.of_to. reflexivity.
Qed.

(** A numeral starts with a digit. *)
Lemma dec_head (n : N) :
  exists c s, Render.dec n = String c s /\ isdigit c = true.
Proof.
  destruct (dec_nonnil n) as [-> H].
  destruct (N.to_uint n); [contradiction | ..]; eexists _, _; split; reflexivity.
Qed.

Lemma isdigit_plain (c : ascii) :
  isdigit c = true ->
  isspace c = false /\ Ascii.eqb c "-" = false /\ Ascii.eqb c "+" = false.
Proof.
  destruct c as [[|] [|] [|] [|] [|] [|] [|] [|]]; intros H;
    try discriminate H; repeat split.
Qed.

(** [%ld] reads back the numeral of [n], up to the bounds of [long]. *)
Lemma scan_long_dec (n : N) (rest : string) :
  Render.no_digit_ahead rest = true ->
  scan_long (Render.dec n ++ rest) = Some (clamp_long (Z.of_N n), rest).
Proof.
  intros Hr. pose proof (scan_digits_dec n rest Hr) as D.
  destruct (dec_head n) as (c & s & E & Hc).
  destruct (isdigit_plain c Hc) as (_ & Hm & Hp).
  unfold scan_long. rewrite E in *. cbn [String.append] in *.
  rewrite Hm, Hp, Hc, D. reflexivity.
Qed.

(** ** Stepping through a format *)

Lemma append_assoc (a b c : string) :
  ((a ++ b) ++ c = a ++ (b ++ c))%string.
Proof. induction a as [|x a IH]; cbn; [reflexivity | now rewrite IH]. Qed.

Lemma skip_ws_spaces (k : nat) (s : string) :
  skip_ws (Render.spaces k ++ s) = skip_ws s.
Proof. induction k as [|k IH]; cbn; [reflexivity | exact IH]. Qed.

Lemma skip_ws_dec (n : N) (s : string) :
  skip_ws (Render.dec n ++ s) = (Render.dec n ++ s)%string.
Proof.
  destruct (dec_head n) as (c & r & -> & Hc).
  destruct (isdigit_plain c Hc) as (Hs & _).
  cbn. rewrite Hs. reflexivity.
Qed.

Lemma run_lit (c : ascii) (fmt : list directive) (s : string) got :
  run (DLit c :: fmt) (String c s) got = run fmt s got.
Proof. cbn [run]. rewrite Ascii.eqb_refl. reflexivity. Qed.

(** [%ld] on the numeral of [n], after any number of spaces. *)
Lemma run_long_dec (k : nat) (n : N) (fmt : list directive) (rest : string) got :
  Render.no_digit_ahead rest = true ->
  run (DLong :: fmt) (Render.spaces k ++ Render.dec n ++ rest) got
  = run fmt rest (got ++ [VLong (clamp_long (Z.of_N n))]).
Proof.
  intros Hr. cbn [run]. rewrite skip_ws_spaces, skip_ws_dec.
  pose proof (scan_long_dec n rest Hr) as L.
  destruct (dec_head n) as (c & r & E & _). rewrite E in *.
  cbn [String.append] in *. rewrite L. reflexivity.
Qed.

(** ** read_cpu_stat *)

(** With the format ["cpu %ld %ld %ld %ld"], a return value of 4 means four
    [long] items. *)
Lemma fscanf_stat_ret (f : string) n got rest :
  fscanf fmt_stat f = (n, got, rest) ->
  (n = 4 <-> exists a b c d, got = [VLong a; VLong b; VLong c; VLong d]) /\
  (got = [] \/ exists a l, got = VLong a :: l).
Proof.
  unfold fscanf.
  destruct (run fmt_stat f []) as [[st g] r] eqn:R.
  destruct (run_fits _ _ _ _ _ _ R) as (more & -> & F). cbn [app] in *.
  intros [= <- <- _].
  destruct more as [|[?|a] [|[?|b] [|[?|c] [|[?|d] [|? ?]]]]];
    try discriminate F.
  - split; [|left; reflexivity].
    split; [destruct st; discriminate | intros (? & ? & ? & ? & [=])].
  - split; [|right; eauto].
    split; [destruct st; discriminate | intros (? & ? & ? & ? & [=])].
  - split; [|right; eauto].
    split; [destruct st; discriminate | intros (? & ? & ? & ? & [=])].
  - split; [|right; eauto].
    split; [destruct st; discriminate | intros (? & ? & ? & ? & [=])].
  - split; [|right; eauto].
    split; [intros _; eauto | destruct st; reflexivity].
Qed.

Lemma run_ws_long_dec (k : nat) (n : N) (fmt : list directive)
    (rest : string) got :
  Render.no_digit_ahead rest = true ->
  run (DWs :: DLong :: fmt) (Render.spaces k ++ Render.dec n ++ rest) got
  = run fmt rest (got ++ [VLong (clamp_long (Z.of_N n))]).
Proof.
  intros Hr. cbn [run]. rewrite skip_ws_spaces, skip_ws_dec.
  exact (run_long_dec 0 n fmt rest got Hr).
Qed.

Lemma clamp_long_id (z : Z) : in_long z -> clamp_long z = z.
Proof. unfold in_long, clamp_long. lia. Qed.

Lemma clamp_long_in_long (z : Z) : in_long (clamp_long z).
Proof. unfold in_long, clamp_long, LONG_MIN, LONG_MAX. lia. Qed.

Lemma fscanf_stat_text (pad : nat) (u n s i : N) (tail : string) :
  Render.no_digit_ahead tail = true ->
  fscanf fmt_stat (Render.stat_text pad u n s i tail)
  = (4, [VLong (clamp_long (Z.of_N u)); VLong (clamp_long (Z.of_N n));
         VLong (clamp_long (Z.of_N s)); VLong (clamp_long (Z.of_N i))], tail).
Proof.
  intros Ht. unfold fscanf, fmt_stat, Render.stat_text.
  cbn [String.append]. rewrite !run_lit.
  change (String " " (Render.spaces pad)) with (Render.spaces (S pad)).
  rewrite run_ws_long_dec by reflexivity.
  change (run ?f (String " " ?x) ?g) with (run f (Render.spaces 1 ++ x) g).
  rewrite run_ws_long_dec by reflexivity.
  change (run ?f (String " " ?x) ?g) with (run f (Render.spaces 1 ++ x) g).
  rewrite run_ws_long_dec by reflexivity.
  change (run ?f (String " " ?x) ?g) with (run f (Render.spaces 1 ++ x) g).
  rewrite run_ws_long_dec by exact Ht.
  reflexivity.
Qed.

(** X1. On a /proc/stat whose first line is [cpu], spaces and four decimal
    counters, [read_cpu_stat] returns 0 and stores the four counters: as
    they are when they fit a [long], and as [LONG_MAX] beyond. *)
Theorem read_cpu_stat_text
    (e : env) (pad : nat) (u n s i : N) (tail : string) (out : cpu_stat) :
  Render.no_digit_ahead tail = true ->
  proc_stat e = Some (Render.stat_text pad u n s i tail) ->
  read_cpu_stat e out =
    (0, {| user := Z.min (Z.of_N u) LONG_MAX;
           nice := Z.min (Z.of_N n) LONG_MAX;
           system := Z.min (Z.of_N s) LONG_MAX;
           idle := Z.min (Z.of_N i) LONG_MAX |}).
Proof.
  intros Ht Hf. unfold read_cpu_stat. rewrite Hf.
  rewrite (fscanf_stat_text pad u n s i tail Ht). cbn.
  assert (C : forall x : N, clamp_long (Z.of_N x) = Z.min (Z.of_N x) LONG_MAX).
  { intros x. unfold clamp_long, LONG_MIN, LONG_MAX. lia. }
  rewrite !C. reflexivity.
Qed.

Lemma read_cpu_stat_text_witness :
  read_cpu_stat Samples.machine (mk_cpu_stat 0 0 0 0) =
    (0, mk_cpu_stat 170 5 5 920).
Proof.
  rewrite (read_cpu_stat_text Samples.machine 1 170 5 5 920
             (" 0 0 0" ++ Samples.nl ++ "cpu0 170 5 5 920 0 0 0" ++ Samples.nl)
             (mk_cpu_stat 0 0 0 0)); reflexivity.
Defined.

(** ** What [fscanf] stores *)

Lemma take_token_bound (w : nat) (s : string) :
  (String.length (fst (take_token w s)) <= w)%nat.
Proof.
  revert s. induction w as [|w IH]; intros [|c s]; cbn; try lia.
  destruct (isspace c); cbn; [lia|].
  specialize (IH s). destruct (take_token w s) as [tok rest]. cbn in *. lia.
Qed.

Lemma scan_long_in_long (s : string) (z : Z) (rest : string) :
  scan_long s = Some (z, rest) -> in_long z.
Proof.
  unfold scan_long.
  destruct (match s with
            | String c r =>
                if Ascii.eqb c "-" then (true, r)
                else if Ascii.eqb c "+" then (false, r) else (false, s)
            | EmptyString => (false, s)
            end) as [neg s1].
  destruct s1 as [|c s1]; [discriminate|].
  destruct (isdigit c); [|discriminate].
  destruct (scan_digits (String c s1) 0) as [v r].
  intros [= <- _]. apply clamp_long_in_long.
Qed.

Lemma within_nil (fmt : list directive) : within fmt [] = true.
Proof. destruct fmt; reflexivity. Qed.

(** Whatever the stream holds, a call stores strings no longer than their
    field width and numbers within the bounds of [long]. *)
Lemma run_within (fmt : list directive) :
  forall inp got st got' rest,
    run fmt inp got = (st, got', rest) ->
    exists more, got' = got ++ more /\ within fmt more = true.
Proof.
  induction fmt as [|d fmt IH]; intros inp got st got' rest; cbn [run].
  - intros [= _ <- _]. exists []. rewrite app_nil_r. split; reflexivity.
  - assert (Stop : forall st0 r0,
               (st0, got, r0) = (st, got', rest) ->
               exists more, got' = got ++ more /\ within (d :: fmt) more = true).
    { intros st0 r0 [= _ <- _]. exists []. rewrite app_nil_r.
      split; [reflexivity | apply within_nil]. }
    destruct d as [|c|w|].
    + intros H. destruct (IH _ _ _ _ _ H) as (more & -> & F).
      exists more. split; [reflexivity|]. destruct more; [reflexivity | exact F].
    + destruct inp as [|c' inp]; [apply Stop|].
      destruct (Ascii.eqb c c'); [|apply Stop].
      intros H. destruct (IH _ _ _ _ _ H) as (more & -> & F).
      exists more. split; [reflexivity|]. destruct more; [reflexivity | exact F].
    + destruct (skip_ws inp) as [|c' s']; [apply Stop|].
      pose proof (take_token_bound w (String c' s')) as B.
      destruct (take_token w (String c' s')) as [tok r]. cbn [fst] in B.
      intros H. destruct (IH _ _ _ _ _ H) as (more & -> & F).
      exists (VStr tok :: more). rewrite <- app_assoc.
      split; [reflexivity|]. cbn [within]. rewrite F, andb_true_r.
      apply Nat.leb_le. exact B.
    + destruct (skip_ws inp) as [|c' s']; [apply Stop|].
      destruct (scan_long (String c' s')) as [[z r]|] eqn:E; [|apply Stop].
      apply scan_long_in_long in E. unfold in_long in E.
      intros H. destruct (IH _ _ _ _ _ H) as (more & -> & F).
      exists (VLong z :: more). rewrite <- app_assoc.
      split; [reflexivity|]. cbn [within]. rewrite F, andb_true_r.
      apply andb_true_iff. split; apply Z.leb_le; lia.
Qed.



(** X3. A successful [read_cpu_stat] writes all four fields, each within the
    bounds of [long]: the structure it leaves does not depend on what the
    structure held before. The return value, 0 or -1, never depends on it. *)
Theorem read_cpu_stat_overwrites (e : env) (out out2 : cpu_stat) :
  (fst (read_cpu_stat e out) = 0 \/ fst (read_cpu_stat e out) = -1) /\
  fst (read_cpu_stat e out2) = fst (read_cpu_stat e out) /\
  (fst (read_cpu_stat e out) = 0 ->
   read_cpu_stat e out2 = read_cpu_stat e out /\
   in_long (user (snd (read_cpu_stat e out))) /\
   in_long (nice (snd (read_cpu_stat e out))) /\
   in_long (system (snd (read_cpu_stat e out))) /\
   in_long (idle (snd (read_cpu_stat e out)))).
Proof.
  unfold read_cpu_stat.
  destruct (proc_stat e) as [f|]; [|cbn; split; [right; reflexivity|];
                                    split; [reflexivity | discriminate]].
  destruct (fscanf fmt_stat f) as [[n got] rest] eqn:F. cbn [fst snd].
  pose proof (proj1 (fscanf_stat_ret f n got rest F)) as Hn.
  split; [destruct (n =? 4); auto|]. split; [reflexivity|].
  destruct (Z.eqb_spec n 4) as [E | E]; [|discriminate].
  intros _. apply Hn in E. destruct E as (a & b & c & d & ->).
  split; [reflexivity|]. cbn [assign_stat user nice system idle].
  unfold fscanf in F.
  destruct (run fmt_stat f []) as [[st g] r] eqn:R.
  destruct (run_within _ _ _ _ _ _ R) as (m & -> & W).
  cbn [app] in F. injection F as _ -> _.
  cbn in W. rewrite !andb_true_iff in W.
  destruct W as ((Ha1 & Ha2) & (Hb1 & Hb2) & (Hc1 & Hc2) & (Hd1 & Hd2) & _).
  unfold in_long. rewrite <- !Z.leb_le. tauto.
Qed.

Lemma read_cpu_stat_overwrites_witness :
  read_cpu_stat Samples.machine (mk_cpu_stat 1 2 3 4)
  = read_cpu_stat Samples.machine (mk_cpu_stat 0 0 0 0).
Proof.
  apply (proj2 (proj2 (read_cpu_stat_overwrites Samples.machine
                         (mk_cpu_stat 0 0 0 0) (mk_cpu_stat 1 2 3 4)))).
  reflexivity.
Defined.

(** X4. [read_cpu_stat] fails, and leaves the structure as it was, when
    /proc/stat does not open or does not start with the three characters
    [cpu] (an empty file included). *)
Theorem read_cpu_stat_no_cpu_line (e : env) (out : cpu_stat) :
  (forall rest : string, proc_stat e <> Some ("cpu" ++ rest)%string) ->
  read_cpu_stat e out = (-1, out).
Proof.
  intros H. unfold read_cpu_stat.
  destruct (proc_stat e) as [f|]; [|reflexivity].
  assert (G : forall st r, run fmt_stat f [] = (st, [], r) ->
              (let '(n, got, _) := fscanf fmt_stat f in
               (if n =? 4 then 0 else -1, assign_stat got out)) = (-1, out)).
  { intros st r R. unfold fscanf. rewrite R. destruct st; reflexivity. }
  unfold fmt_stat in *.
  destruct f as [|a f]; [eapply G; reflexivity|].
  destruct (Ascii.eqb_spec "c" a) as [<- | Na];
    [|eapply G; cbn [run]; rewrite (proj2 (Ascii.eqb_neq _ _) Na); reflexivity].
  destruct f as [|b f]; [eapply G; reflexivity|].
  destruct (Ascii.eqb_spec "p" b) as [<- | Nb];
    [|eapply G; cbn [run]; rewrite (proj2 (Ascii.eqb_neq _ _) Nb); reflexivity].
  destruct f as [|c f]; [eapply G; reflexivity|].
  destruct (Ascii.eqb_spec "u" c) as [<- | Nc];
    [|eapply G; cbn [run]; rewrite (proj2 (Ascii.eqb_neq _ _) Nc); reflexivity].
  exfalso. apply (H f). reflexivity.
Qed.

Lemma read_cpu_stat_no_cpu_line_witness :
  read_cpu_stat (mk_env 8 None (Some "intr 12 0 0"%string) None)
    (mk_cpu_stat 1 2 3 4)
  = (-1, mk_cpu_stat 1 2 3 4).
Proof.
  apply read_cpu_stat_no_cpu_line. intros rest. discriminate.
Defined.

(** ** The text of /proc/meminfo *)

Lemma length_append (a b : string) :
  String.length (a ++ b) = (String.length a + String.length b)%nat.
Proof. induction a as [|x a IH]; cbn; [reflexivity | now rewrite IH]. Qed.

Lemma word_head (k : string) :
  Render.word k = true ->
  exists c k', k = String c k' /\ isspace c = false.
Proof.
  unfold Render.word. destruct k as [|c k]; [discriminate|].
  cbn. rewrite !andb_true_iff, !negb_true_iff. intros ((Hs & _) & _).
  eauto.
Qed.

Lemma take_token_word (w : nat) (k rest : string) :
  Render.all_chars (fun c => negb (isspace c) && negb (Ascii.eqb c "000")) k
    = true ->
  (String.length k <= w)%nat ->
  Render.space_ahead rest = true ->
  take_token w (k ++ rest) = (k, rest).
Proof.
  revert w. induction k as [|c k IH]; intros w Hk Hl Hr.
  - cbn. destruct w, rest as [|c r]; try reflexivity.
    cbn in Hr. cbn. rewrite Hr. reflexivity.
  - destruct w as [|w]; [cbn in Hl; lia|].
    cbn in Hk. rewrite !andb_true_iff, !negb_true_iff in Hk.
    destruct Hk as ((Hs & _) & Hk).
    cbn [String.append take_token]. rewrite Hs, (IH w Hk).
    + reflexivity.
    + cbn in Hl. lia.
    + exact Hr.
Qed.

(** [%ws] on a word that fits, after any white space. *)
Lemma run_str_word (w : nat) (fmt : list directive) (s k rest : string) got :
  Render.word k = true -> (String.length k <= w)%nat ->
  Render.space_ahead rest = true ->
  skip_ws s = (k ++ rest)%string ->
  run (DStr w :: fmt) s got = run fmt rest (got ++ [VStr k]).
Proof.
  intros Hw Hl Hr Hs. cbn [run]. rewrite Hs.
  pose proof Hw as Hw'. unfold Render.word in Hw'.
  apply andb_true_iff in Hw'. destruct Hw' as [_ Hall].
  pose proof (take_token_word w k rest Hall Hl Hr) as T.
  destruct (word_head k Hw) as (c & k' & E & _). rewrite E in *.
  cbn [String.append] in *. rewrite T. reflexivity.
Qed.

Lemma skip_ws_word (k rest : string) :
  Render.word k = true -> skip_ws (k ++ rest) = (k ++ rest)%string.
Proof.
  intros Hw. destruct (word_head k Hw) as (c & k' & -> & Hc).
  cbn. rewrite Hc. reflexivity.
Qed.

(** One call of [fscanf] on a line, after the newline of the line before. *)
Lemma fscanf_kvu_line (l : Render.meminfo_line) (pre more : string) :
  Render.line_ok l -> pre = EmptyString \/ pre = Samples.nl ->
  fscanf fmt_kvu (pre ++ Render.line_text l ++ more)
  = (3, [VStr (Render.key l); VLong (clamp_long (Z.of_N (Render.value l)));
         VStr "kB"], (Samples.nl ++ more)%string).
Proof.
  intros [Hw Hl] Hpre. unfold fscanf, fmt_kvu, Render.line_text.
  rewrite !append_assoc.
  rewrite (run_str_word 31 _ _ (Render.key l)
             (Render.spaces (S (Render.pad l)) ++ Render.dec (Render.value l) ++
              " kB" ++ Samples.nl ++ more) [] Hw Hl eq_refl).
  - rewrite run_ws_long_dec by reflexivity. reflexivity.
  - destruct Hpre as [-> | ->]; cbn [String.append Samples.nl];
      [|change (skip_ws (String "010" ?x)) with (skip_ws x)];
      apply skip_ws_word; exact Hw.
Qed.

Lemma triples_text (ls : list Render.meminfo_line) :
  forall (fuel : nat) (pre : string),
    Forall Render.line_ok ls -> pre = EmptyString \/ pre = Samples.nl ->
    (length ls < fuel)%nat ->
    triples fuel (pre ++ Render.meminfo_text ls) = map Render.pair_of ls.
Proof.
  induction ls as [|l ls IH]; intros fuel pre Hok Hpre Hf.
  - destruct fuel as [|fuel]; [cbn in Hf; lia|].
    destruct Hpre as [-> | ->]; reflexivity.
  - destruct fuel as [|fuel]; [cbn in Hf; lia|].
    inversion Hok as [|? ? Hl Hls]; subst.
    cbn [triples Render.meminfo_text map].
    rewrite (fscanf_kvu_line l pre _ Hl Hpre).
    rewrite (IH fuel Samples.nl Hls (or_intror eq_refl)) by (cbn in Hf; lia).
    reflexivity.
Qed.

Lemma meminfo_text_length (ls : list Render.meminfo_line) :
  (length ls <= String.length (Render.meminfo_text ls))%nat.
Proof.
  induction ls as [|l ls IH]; cbn [length Render.meminfo_text]; [lia|].
  rewrite length_append. unfold Render.line_text.
  rewrite !length_append. cbn. lia.
Qed.

(** X5. Scanning the text of a /proc/meminfo whose keys are words of at most
    31 characters gives back its lines: the pairs of the stream are the
    keys with their values, in order. *)
Theorem pairs_of_meminfo_text (ls : list Render.meminfo_line) :
  Forall Render.line_ok ls ->
  pairs_of (Render.meminfo_text ls) = map Render.pair_of ls.
Proof.
  intros Hok. unfold pairs_of.
  apply (triples_text ls _ EmptyString Hok (or_introl eq_refl)).
  pose proof (meminfo_text_length ls). lia.
Qed.

Lemma pairs_of_meminfo_text_witness :
  pairs_of (Render.meminfo_text
              [Render.mk_line "MemTotal:" 7 4194304;
               Render.mk_line "Cached:" 0 99])
  = [("MemTotal:"%string, 4194304); ("Cached:"%string, 99)].
Proof.
  rewrite pairs_of_meminfo_text; [reflexivity|].
  repeat constructor.
Defined.

(** A word holds no NUL: as a C string it is itself. *)
Lemma cstr_word (k : string) :
  Render.all_chars (fun c => negb (isspace c) && negb (Ascii.eqb c "000")) k
    = true ->
  cstr k = k.
Proof.
  induction k as [|c k IH]; cbn; [reflexivity|].
  rewrite !andb_true_iff, !negb_true_iff. intros ((_ & Hn) & Hk).
  rewrite Hn, (IH Hk). reflexivity.
Qed.

Lemma line_ok_cstr (ls : list Render.meminfo_line) :
  Forall Render.line_ok ls ->
  Forall (fun kv : string * Z => cstr (fst kv) = fst kv)
    (map Render.pair_of ls).
Proof.
  intros H. apply Forall_map. eapply Forall_impl; [exact H|].
  intros l [Hw _]. cbn. apply cstr_word.
  unfold Render.word in Hw. apply andb_true_iff in Hw. tauto.
Qed.

Lemma four_keys_cstr (k : string) : k ∈ Render.four_keys -> cstr k = k.
Proof.
  unfold Render.four_keys. rewrite !elem_of_cons, elem_of_nil.
  intros [-> | [-> | [-> | [-> | []]]]]; reflexivity.
Qed.

Lemma streq_plain (a b : string) :
  cstr a = a -> cstr b = b -> streq a b = String.eqb a b.
Proof. unfold streq. intros -> ->. reflexivity. Qed.

Lemma fold_value_absent (k : string) (l : list (string * Z)) (acc : Z) :
  has_key k l = false ->
  fold_left (fun acc kv => if streq (fst kv) k then snd kv else acc) l acc
  = acc.
Proof.
  unfold has_key. revert acc.
  induction l as [|[k' v] l IH]; intros acc;
    cbn [existsb fold_left fst snd]; [reflexivity|].
  destruct (streq k' k); cbn [orb]; [discriminate|]. apply IH.
Qed.

Lemma has_key_elem (k : string) (l : list (string * Z)) :
  Forall (fun kv : string * Z => cstr (fst kv) = fst kv) l -> cstr k = k ->
  has_key k l = true <-> k ∈ map fst l.
Proof.
  intros Hl Hk. unfold has_key.
  induction l as [|[k' v] l IH]; cbn [existsb map fst].
  - rewrite elem_of_nil. split; [discriminate | contradiction].
  - inversion Hl as [|? ? Hc Hl']; subst. cbn [fst] in Hc.
    rewrite elem_of_cons, orb_true_iff, (IH Hl'), (streq_plain _ _ Hc Hk).
    rewrite String.eqb_eq. split; intros [H | H]; auto.
Qed.

Lemma count_key_nodup (k : string) (l : list (string * Z)) :
  Forall (fun kv : string * Z => cstr (fst kv) = fst kv) l -> cstr k = k ->
  NoDup (map fst l) ->
  count_if (fun k' => streq k' k) l <= 1 /\
  (1 <= count_if (fun k' => streq k' k) l -> k ∈ map fst l).
Proof.
  intros Hl Hk. induction l as [|[k' v] l IH]; cbn [count_if map fst];
    intros Hnd; [split; [lia | intros; lia]|].
  inversion Hl as [|? ? Hc Hl']; subst. cbn [fst] in Hc.
  apply NoDup_cons in Hnd. destruct Hnd as [Hni Hnd].
  destruct (IH Hl' Hnd) as [Hle Hin].
  rewrite (streq_plain _ _ Hc Hk), elem_of_cons.
  destruct (String.eqb_spec k' k) as [-> | Hne].
  - destruct (Z_le_gt_dec 1 (count_if (fun k' => streq k' k) l)) as [H1 | H0].
    + exfalso. apply Hni, Hin, H1.
    + split; [lia | auto].
  - split; [lia|]. intros H. right. apply Hin. lia.
Qed.

(** Either the loop processes all pairs, or it stops with four named keys
    counted. *)
Lemma upto4_cut (l : list (string * Z)) :
  forall cnt, upto4 cnt l = l \/ cnt + count_if named (upto4 cnt l) = 4.
Proof.
  induction l as [|[k v] l IH]; intros cnt; cbn [upto4]; [left; reflexivity|].
  destruct (Z.eqb_spec (if named k then cnt + 1 else cnt) 4) as [E | E].
  - right. cbn [count_if]. destruct (named k); lia.
  - destruct (IH (if named k then cnt + 1 else cnt)) as [-> | H].
    + left. reflexivity.
    + right. cbn [count_if]. destruct (named k); lia.
Qed.

(** With keys that do not repeat, the pairs left unprocessed hold none of the
    four keys: the value found for a key is the one of the whole stream. *)
Lemma last_value_upto4 (k : string) (l : list (string * Z)) :
  Forall (fun kv : string * Z => cstr (fst kv) = fst kv) l ->
  NoDup (map fst l) -> k ∈ Render.four_keys ->
  last_value k (upto4 0 l) = last_value k l.
Proof.
  intros Hl Hnd Hk.
  destruct (upto4_prefix l 0) as [post Hpost].
  destruct (upto4_cut l 0) as [-> | Hcut]; [reflexivity|].
  set (pre := upto4 0 l) in *.
  rewrite Hpost in Hl, Hnd |- *.
  apply Forall_app in Hl. destruct Hl as [Hpre Hpo].
  rewrite map_app in Hnd. apply NoDup_app in Hnd.
  destruct Hnd as (Hnd1 & Hdisj & _).
  assert (Hin : k ∈ map fst pre).
  { rewrite count_named_split in Hcut.
    pose proof (count_key_nodup "MemTotal:" pre Hpre eq_refl Hnd1) as [A1 B1].
    pose proof (count_key_nodup "MemAvailable:" pre Hpre eq_refl Hnd1) as [A2 B2].
    pose proof (count_key_nodup "SwapTotal:" pre Hpre eq_refl Hnd1) as [A3 B3].
    pose proof (count_key_nodup "SwapFree:" pre Hpre eq_refl Hnd1) as [A4 B4].
    unfold Render.four_keys in Hk. rewrite !elem_of_cons, elem_of_nil in Hk.
    destruct Hk as [-> | [-> | [-> | [-> | []]]]];
      [apply B1 | apply B2 | apply B3 | apply B4]; lia. }
  assert (Hno : has_key k post = false).
  { destruct (has_key k post) eqn:E; [|reflexivity]. exfalso.
    apply (has_key_elem k post Hpo (four_keys_cstr k Hk)) in E.
    exact (Hdisj k Hin E). }
  symmetry. unfold last_value. rewrite fold_left_app.
  apply fold_value_absent. exact Hno.
Qed.

(** With keys that do not repeat, the value found for a key is the value of
    its line, and 0 without such a line. *)
Lemma last_value_lines (k : string) (ls : list Render.meminfo_line) :
  Forall Render.line_ok ls -> NoDup (map Render.key ls) -> cstr k = k ->
  (forall l, l ∈ ls -> Render.key l = k ->
     last_value k (map Render.pair_of ls) = snd (Render.pair_of l)) /\
  (k ∉ map Render.key ls -> last_value k (map Render.pair_of ls) = 0).
Proof.
  intros Hok Hnd Hk.
  pose proof (line_ok_cstr ls Hok) as Hc.
  assert (Hkeys : map fst (map Render.pair_of ls) = map Render.key ls).
  { rewrite <- list_fmap_compose. reflexivity. }
  split.
  - unfold last_value. generalize 0.
    induction ls as [|x ls IH]; intros acc l Hin Hkey;
      [apply elem_of_nil in Hin; contradiction|].
    cbn [map fold_left] in *.
    inversion Hok as [|? ? Hx Hok']; subst.
    inversion Hc as [|? ? Hcx Hc']; subst.
    apply NoDup_cons in Hnd. destruct Hnd as [Hni Hnd'].
    assert (Hk' : map fst (map Render.pair_of ls) = map Render.key ls)
      by (rewrite <- list_fmap_compose; reflexivity).
    cbn [Render.pair_of fst snd] in *.
    rewrite (streq_plain _ _ Hcx Hk).
    apply elem_of_cons in Hin. destruct Hin as [-> | Hin].
    + rewrite String.eqb_refl. apply fold_value_absent.
      destruct (has_key (Render.key x) (map Render.pair_of ls)) eqn:E;
        [|reflexivity].
      exfalso. apply (has_key_elem _ _ Hc' Hk) in E. rewrite Hk' in E.
      exact (Hni E).
    + destruct (String.eqb_spec (Render.key x) (Render.key l)) as [E | _].
      * exfalso. apply Hni. rewrite E.
        apply list_elem_of_fmap. exists l. split; [reflexivity | exact Hin].
      * apply (IH Hok' Hnd' Hc' Hk' acc l Hin eq_refl).
  - intros Hni. apply last_value_absent.
    destruct (has_key k (map Render.pair_of ls)) eqn:E; [|reflexivity].
    exfalso. apply (has_key_elem _ _ Hc Hk) in E. rewrite Hkeys in E.
    exact (Hni E).
Qed.

(** X6. On a /proc/meminfo whose keys are words of at most 31 characters
    that do not repeat, [read_mem_stat] returns 0 and each of the four
    fields holds the value of the line with its key (as [LONG_MAX] when the
    value is beyond it), wherever the line stands, and 0 when the file has
    no such line. *)
Theorem read_mem_stat_text
    (e : env) (c : mem_stat) (ls : list Render.meminfo_line) :
  Forall Render.line_ok ls -> NoDup (map Render.key ls) ->
  proc_meminfo e = Some (Render.meminfo_text ls) ->
  exists m,
    read_mem_stat e (Some c) = Returns (0, Some m) /\
    forall k, k ∈ Render.four_keys ->
      (forall l, l ∈ ls -> Render.key l = k ->
         Render.field_of k m = Z.min (Z.of_N (Render.value l)) LONG_MAX) /\
      (k ∉ map Render.key ls -> Render.field_of k m = 0).
Proof.
  intros Hok Hnd Hf.
  eexists. split; [exact (read_mem_stat_open e c _ Hf)|].
  intros k Hk.
  assert (Hp : processed (Render.meminfo_text ls)
               = upto4 0 (map Render.pair_of ls)).
  { unfold processed, pairs_of. f_equal.
    apply (triples_text ls _ EmptyString Hok (or_introl eq_refl)).
    pose proof (meminfo_text_length ls). lia. }
  assert (Hfield : Render.field_of k
                     (fold_left step (processed (Render.meminfo_text ls)) zero)
                   = last_value k (map Render.pair_of ls)).
  { rewrite Hp, fold_step_fields. cbn zeta.
    rewrite <- (last_value_upto4 k (map Render.pair_of ls)
                  (line_ok_cstr ls Hok)); [|
      rewrite <- list_fmap_compose; exact Hnd | exact Hk].
    unfold Render.four_keys in Hk. rewrite !elem_of_cons, elem_of_nil in Hk.
    destruct Hk as [-> | [-> | [-> | [-> | []]]]]; reflexivity. }
  rewrite Hfield.
  destruct (last_value_lines k ls Hok Hnd (four_keys_cstr k Hk)) as [H1 H0].
  split; [|exact H0].
  intros l Hin Hkey. rewrite (H1 l Hin Hkey). cbn.
  unfold clamp_long, LONG_MIN, LONG_MAX. lia.
Qed.

Lemma read_mem_stat_text_witness :
  exists m,
    read_mem_stat
      (mk_env 8 None None
         (Some (Render.meminfo_text
                  [Render.mk_line "SwapFree:" 3 1048576;
                   Render.mk_line "MemTotal:" 7 4194304])))
      (Some zero) = Returns (0, Some m) /\
    forall k, k ∈ Render.four_keys ->
      (forall l, l ∈ [Render.mk_line "SwapFree:" 3 1048576;
                      Render.mk_line "MemTotal:" 7 4194304] ->
         Render.key l = k ->
         Render.field_of k m = Z.min (Z.of_N (Render.value l)) LONG_MAX) /\
      (k ∉ map Render.key [Render.mk_line "SwapFree:" 3 1048576;
                           Render.mk_line "MemTotal:" 7 4194304] ->
       Render.field_of k m = 0).
Proof.
  apply read_mem_stat_text.
  - repeat constructor.
  - cbn. apply NoDup_cons. split; [|apply NoDup_singleton].
    rewrite elem_of_cons, elem_of_nil. intros [H | []]. discriminate H.
  - reflexivity.
Defined.

(** ** Reading and classifying *)

Lemma has_key_prefix (k : string) (l1 l2 : list (string * Z)) :
  l1 `prefix_of` l2 -> has_key k l2 = false -> has_key k l1 = false.
Proof.
  intros [post ->]. unfold has_key. rewrite existsb_app, orb_false_iff. tauto.
Qed.

(** X7. When /proc/meminfo does not open, or holds no [MemTotal:] pair,
    [read_mem_stat] leaves a total of 0 and the classifier answers OK,
    whatever the other lines say. *)
Theorem mem_state_without_total (e : env) (c : mem_stat) :
  proc_meminfo e = None \/
  (exists f, proc_meminfo e = Some f /\
             has_key "MemTotal:" (pairs_of f) = false) ->
  exists r m,
    read_mem_stat e (Some c) = Returns (r, Some m) /\
    mem_total_kb m = 0 /\
    mem_state_from_capacity (Some m) = SYS_OK.
Proof.
  intros [Hf | (f & Hf & Hk)].
  - exists (-1), zero. unfold read_mem_stat. rewrite Hf. repeat split.
  - eexists 0, _. split; [exact (read_mem_stat_open e c f Hf)|].
    assert (E : mem_total_kb (fold_left step (processed f) zero) = 0).
    { rewrite fold_step_fields. cbn zeta. cbn [mem_total_kb].
      apply (last_value_absent "MemTotal:" (processed f)).
      apply (has_key_prefix _ _ (pairs_of f)); [apply upto4_prefix | exact Hk]. }
    split; [exact E|].
    unfold mem_state_from_capacity. rewrite E. reflexivity.
Qed.

Lemma mem_state_without_total_witness :
  exists r m,
    read_mem_stat
      (mk_env 8 None None
         (Some ("MemAvailable: 1 kB SwapTotal: 100 kB SwapFree: 0 kB"%string)))
      (Some zero) = Returns (r, Some m) /\
    mem_total_kb m = 0 /\
    mem_state_from_capacity (Some m) = SYS_OK.
Proof.
  apply mem_state_without_total. right.
  eexists. split; [reflexivity|]. vm_compute. reflexivity.
Defined.

(** ** The window as a ring *)

Lemma holds_slots (w : cpu_window) (recent : list float) :
  wf w -> holds w recent ->
  count w = Z.of_nat (length recent) /\
  take (Z.to_nat (count w)) (samples w) =
    drop (length recent - Z.to_nat (index w)) recent ++
    take (length recent - Z.to_nat (index w)) recent.
Proof.
  intros (_ & _ & Hc) (older & newer & -> & Ht & Hn & _ & Hcnt).
  split; [lia|].
  rewrite Ht, <- Hn, length_app.
  replace (length older + length newer - length newer)%nat
    with (length older) by lia.
  rewrite drop_app_length, take_app_length. reflexivity.
Qed.

Lemma add_all_index (vs : list float) :
  forall w : cpu_window,
    0 <= index w < CPU_WINDOW ->
    exists w', add_all w vs = Returns w' /\
               index w' = (index w + Z.of_nat (length vs)) mod 10.
Proof.
  unfold CPU_WINDOW.
  induction vs as [|v vs IH]; intros w Hi.
  - exists w. split; [reflexivity|]. cbn. rewrite Z.add_0_r, Z.mod_small; lia.
  - cbn [add_all]. unfold cpu_window_add, CPU_WINDOW.
    destruct (decide (0 <= index w < 10)) as [_ | Hn]; [|lia].
    cbn [mbind outcome_bind].
    set (w1 := {| samples := _; index := _; count := _ |}).
    assert (H1 : index w1 = (index w + 1) mod 10).
    { unfold w1. cbn [index]. apply Z.rem_mod_nonneg; lia. }
    destruct (IH w1) as (w' & E & Hi').
    { rewrite H1. apply Z.mod_pos_bound. lia. }
    exists w'. split; [exact E|].
    rewrite Hi', H1, Zplus_mod_idemp_l. f_equal. cbn [length]. lia.
Qed.

(** The window after any additions to an initialised window. *)
Lemma add_all_init_shape (w0 : cpu_window) (vs : list float) :
  length (samples w0) = 10%nat ->
  exists w,
    add_all (cpu_window_init w0) vs = Returns w /\ wf w /\
    index w = Z.of_nat (length vs) mod 10 /\
    count w = Z.of_nat (length (lastn 10 vs)) /\
    take (Z.to_nat (count w)) (samples w) =
      drop (length (lastn 10 vs) - Z.to_nat (index w)) (lastn 10 vs) ++
      take (length (lastn 10 vs) - Z.to_nat (index w)) (lastn 10 vs).
Proof.
  intros Hlen.
  destruct (cpu_window_init_holds w0 Hlen) as [Hwf Hh].
  destruct (add_all_holds vs _ _ Hwf Hh) as (w & E & Hwf' & Hh').
  cbn [app] in Hh'.
  destruct (add_all_index vs (cpu_window_init w0)) as (w' & E' & Hi);
    [cbn; unfold CPU_WINDOW; lia|].
  rewrite E in E'. injection E' as <-.
  destruct (holds_slots w _ Hwf' Hh') as [Hc Ht].
  exists w. repeat split; try assumption; apply Hwf'.
Qed.

(** X8. After any additions to an initialised window, [index] is the number
    of additions modulo 10 and the slots in use hold the most recent values
    as a ring: from slot 0 the values added since the last wrap-around, then
    the older ones, the oldest of all at slot [index] once the array is
    full. *)
Theorem cpu_window_ring (w0 : cpu_window) (vs : list float) :
  length (samples w0) = 10%nat ->
  exists w,
    add_all (cpu_window_init w0) vs = Returns w /\
    index w = Z.of_nat (length vs) mod 10 /\
    let recent := lastn 10 vs in
    let k := (length recent - Z.to_nat (index w))%nat in
    take (Z.to_nat (count w)) (samples w) = drop k recent ++ take k recent.
Proof.
  intros Hlen.
  destruct (add_all_init_shape w0 vs Hlen) as (w & E & _ & Hi & _ & Ht).
  exists w. repeat split; assumption.
Qed.

Lemma cpu_window_ring_witness :
  exists w,
    add_all (cpu_window_init (mk_cpu_window (replicate 10 0%float) 5 5))
      [1; 2; 3; 4; 5; 6; 7; 8; 9; 10; 11; 12]%float = Returns w /\
    index w = Z.of_nat 12 mod 10 /\
    let recent := lastn 10 [1; 2; 3; 4; 5; 6; 7; 8; 9; 10; 11; 12]%float in
    let k := (length recent - Z.to_nat (index w))%nat in
    take (Z.to_nat (count w)) (samples w) = drop k recent ++ take k recent.
Proof.
  apply (cpu_window_ring (mk_cpu_window (replicate 10 0%float) 5 5)).
  reflexivity.
Defined.

(** X9. The average after any additions to an initialised window does not
    depend on what the array held before [cpu_window_init]: no slot is read
    before it is written. *)
Theorem cpu_window_avg_ignores_prior (w0 w0' : cpu_window) (vs : list float) :
  length (samples w0) = 10%nat -> length (samples w0') = 10%nat ->
  add_all (cpu_window_init w0) vs ≫= cpu_window_avg
  = add_all (cpu_window_init w0') vs ≫= cpu_window_avg.
Proof.
  intros H H'.
  destruct (add_all_init_shape w0 vs H) as (w & E & Hwf & Hi & Hc & Ht).
  destruct (add_all_init_shape w0' vs H') as (w' & E' & Hwf' & Hi' & Hc' & Ht').
  rewrite E, E'. cbn [mbind outcome_bind].
  rewrite (cpu_window_avg_wf w Hwf), (cpu_window_avg_wf w' Hwf').
  rewrite Ht, Ht', Hi, Hi', Hc, Hc'. reflexivity.
Qed.

Lemma cpu_window_avg_ignores_prior_witness :
  add_all (cpu_window_init (mk_cpu_window (replicate 10 0%float) 5 5))
    [10; 20]%float ≫= cpu_window_avg
  = add_all (cpu_window_init (mk_cpu_window (replicate 10 99%float) 0 0))
      [10; 20]%float ≫= cpu_window_avg.
Proof.
  apply cpu_window_avg_ignores_prior; reflexivity.
Defined.

(** ** The loop *)

Lemma read_cpu_stat_indep (e : env) (out out2 : cpu_stat) :
  fst (read_cpu_stat e out2) = fst (read_cpu_stat e out) /\
  (fst (read_cpu_stat e out) = 0 -> read_cpu_stat e out2 = read_cpu_stat e out).
Proof.
  unfold read_cpu_stat.
  destruct (proc_stat e) as [f|]; [|cbn; split; [reflexivity | discriminate]].
  destruct (fscanf fmt_stat f) as [[n got] rest] eqn:F. cbn [fst snd].
  pose proof (proj1 (fscanf_stat_ret f n got rest F)) as Hn.
  split; [reflexivity|].
  destruct (Z.eqb_spec n 4) as [E | E]; [|discriminate].
  intros _. apply Hn in E. destruct E as (a & b & c & d & ->). reflexivity.
Qed.

Lemma cpu_read_ok_spec (e : env) (t : float) (out : cpu_stat) :
  cpu_read_ok (e, t) = (fst (read_cpu_stat e out) =? 0).
Proof.
  unfold cpu_read_ok. cbn [fst].
  rewrite (proj1 (read_cpu_stat_indep e out no_ticks)). reflexivity.
Qed.

Lemma cpu_window_add_index (w w' : cpu_window) (v : float) :
  cpu_window_add w v = Returns w' ->
  index w' = Z.rem (index w + 1) CPU_WINDOW.
Proof.
  unfold cpu_window_add.
  destruct (decide (0 <= index w < CPU_WINDOW)); [|discriminate].
  intros [= <-]. reflexivity.
Qed.

(** One pass on a well-formed window: without a record the window is
    untouched; with a record the window has taken the printed usage and the
    printed average is the average of the window. *)
Lemma tick_holds (e : env) (t : float) (st : loop_state) (recent : list float) :
  wf (cpu_win st) -> holds (cpu_win st) recent ->
  exists st' r,
    tick e t st = Returns (st', r) /\ wf (cpu_win st') /\
    match r with
    | None =>
        cpu_read_ok (e, t) = false /\ prev_cpu st' = prev_cpu st /\
        cpu_win st' = cpu_win st /\ mem st' = mem st
    | Some rep =>
        cpu_read_ok (e, t) = true /\
        holds (cpu_win st') (lastn 10 (recent ++ [cpu rep])) /\
        cpu_window_avg (cpu_win st') = Returns (cpu_avg rep)
    end.
Proof.
  intros Hwf Hh. rewrite (cpu_read_ok_spec e t (curr_cpu st)). unfold tick.
  destruct (read_cpu_stat e (curr_cpu st)) as [rc curr]. cbn [fst].
  destruct (rc =? 0); cbn [negb].
  - generalize (cpu_usage (prev_cpu st) curr). intros usage.
    destruct (cpu_window_add_holds (cpu_win st) recent usage Hwf Hh)
      as (win & Ea & Hwin & Hhw).
    rewrite Ea. cbn [mbind outcome_bind].
    destruct (read_mem_stat_returns e (Some (mem st))) as (r & m & Em & _).
    rewrite Em. cbn [mbind outcome_bind].
    pose proof (cpu_window_avg_wf win Hwin) as Eavg.
    destruct (cpu_window_avg win) as [avg_cpu| |] eqn:Eav;
      try discriminate Eavg.
    cbn [mbind outcome_bind].
    eexists _, _. split; [reflexivity|].
    cbn [cpu_win emit cpu cpu_avg].
    split; [exact Hwin|]. split; [reflexivity|]. split; [exact Hhw | exact Eav].
  - eexists _, _. split; [reflexivity|]. cbn [cpu_win prev_cpu mem].
    split; [exact Hwf|]. repeat split.
Qed.

(** X10. The loop, started on a well-formed window, never leaves the array
    and prints one record for each pass whose [read_cpu_stat] succeeds. The
    window then holds the last 10 of what it held followed by the printed
    usages, and the average printed last is the average of the window as the
    loop leaves it. *)
Theorem loop_window (passes : list (env * float)) :
  forall (st : loop_state) (recent : list float),
    wf (cpu_win st) -> holds (cpu_win st) recent ->
    exists st' reps,
      loop passes st = Returns (st', reps) /\
      wf (cpu_win st') /\
      length reps = length (filter cpu_read_ok passes) /\
      holds (cpu_win st') (lastn 10 (recent ++ map cpu reps)) /\
      (reps = [] -> cpu_win st' = cpu_win st) /\
      (forall r, last reps = Some r ->
         cpu_window_avg (cpu_win st') = Returns (cpu_avg r)).
Proof.
  induction passes as [|[e t] ps IH]; intros st recent Hwf Hh.
  - exists st, []. cbn [loop map length filter]. rewrite app_nil_r.
    split; [reflexivity|]. split; [exact Hwf|]. split; [reflexivity|].
    split.
    + rewrite lastn_short; [exact Hh|].
      destruct Hwf as (_ & _ & Hc).
      destruct Hh as (_ & _ & _ & _ & _ & _ & Hcnt).
      unfold CPU_WINDOW in Hc. lia.
    + split; [reflexivity | discriminate].
  - destruct (tick_holds e t st recent Hwf Hh) as (s & r & Et & Hwfs & Hr).
    cbn [loop]. rewrite Et. cbn [mbind outcome_bind].
    rewrite filter_cons.
    destruct r as [rep|].
    + destruct Hr as (Hok & Hhs & Havg).
      destruct (IH s _ Hwfs Hhs) as (st' & rs & El & Hwf' & Hlen & Hh' & Hnil & Hlast).
      rewrite El. cbn [mbind outcome_bind].
      exists st', (rep :: rs). split; [reflexivity|]. split; [exact Hwf'|].
      split; [rewrite decide_True by (rewrite Hok; exact I); cbn; lia|].
      split; [rewrite lastn_lastn_app, <- app_assoc in Hh'; exact Hh'|].
      split; [discriminate|].
      intros r Hr. destruct rs as [|r' rs'].
      * cbn in Hr. injection Hr as <-. rewrite (Hnil eq_refl). exact Havg.
      * apply Hlast. rewrite <- Hr. reflexivity.
    + destruct Hr as (Hok & _ & Hw & _).
      assert (Hhs : holds (cpu_win s) recent) by (rewrite Hw; exact Hh).
      destruct (IH s _ Hwfs Hhs) as (st' & rs & El & Hwf' & Hlen & Hh' & Hnil & Hlast).
      rewrite El. cbn [mbind outcome_bind].
      exists st', rs. split; [reflexivity|]. split; [exact Hwf'|].
      split; [rewrite decide_False by (rewrite Hok; exact id); exact Hlen|].
      split; [exact Hh'|].
      split; [intros E; rewrite (Hnil E); exact Hw | exact Hlast].
Qed.

Lemma loop_window_witness :
  exists st' reps,
    loop [(Samples.machine, 1%float);
          (mk_env 8 None None None, 2%float);
          (Samples.machine, 3%float)]
      (mk_loop_state no_ticks no_ticks
         (cpu_window_init (mk_cpu_window (replicate 10 0%float) 0 0)) zero)
    = Returns (st', reps) /\
    wf (cpu_win st') /\
    length reps =
      length (filter cpu_read_ok
                [(Samples.machine, 1%float);
                 (mk_env 8 None None None, 2%float);
                 (Samples.machine, 3%float)]) /\
    holds (cpu_win st') (lastn 10 ([] ++ map cpu reps)) /\
    (reps = [] ->
     cpu_win st' = cpu_window_init (mk_cpu_window (replicate 10 0%float) 0 0)) /\
    (forall r, last reps = Some r ->
       cpu_window_avg (cpu_win st') = Returns (cpu_avg r)).
Proof.
  apply (loop_window _
           (mk_loop_state no_ticks no_ticks
              (cpu_window_init (mk_cpu_window (replicate 10 0%float) 0 0)) zero)
           []);
    apply (cpu_window_init_holds (mk_cpu_window (replicate 10 0%float) 0 0));
    reflexivity.
Defined.

Lemma win_alike_avg (w1 w2 : cpu_window) :
  win_alike w1 w2 -> cpu_window_avg w1 = cpu_window_avg w2.
Proof.
  intros (Hwf1 & Hwf2 & Hi & recent & H1 & H2).
  destruct (holds_slots w1 recent Hwf1 H1) as [Hc1 Ht1].
  destruct (holds_slots w2 recent Hwf2 H2) as [Hc2 Ht2].
  rewrite (cpu_window_avg_wf w1 Hwf1), (cpu_window_avg_wf w2 Hwf2).
  rewrite Ht1, Ht2, Hi, Hc1, Hc2. reflexivity.
Qed.

Lemma win_alike_add (w1 w2 : cpu_window) (v : float) :
  win_alike w1 w2 ->
  exists w1' w2',
    cpu_window_add w1 v = Returns w1' /\ cpu_window_add w2 v = Returns w2' /\
    win_alike w1' w2'.
Proof.
  intros (Hwf1 & Hwf2 & Hi & recent & H1 & H2).
  destruct (cpu_window_add_holds w1 recent v Hwf1 H1) as (w1' & E1 & Hwf1' & H1').
  destruct (cpu_window_add_holds w2 recent v Hwf2 H2) as (w2' & E2 & Hwf2' & H2').
  exists w1', w2'. split; [exact E1|]. split; [exact E2|].
  split; [exact Hwf1'|]. split; [exact Hwf2'|]. split.
  - rewrite (cpu_window_add_index _ _ _ E1), (cpu_window_add_index _ _ _ E2), Hi.
    reflexivity.
  - eauto.
Qed.

(** A pass on two states that are alike prints the same and leaves states
    that are alike; a pass whose [read_cpu_stat] fails prints nothing and
    changes neither the previous snapshot, nor the window, nor the memory
    snapshot. *)
Lemma tick_alike (e : env) (t : float) (st1 st2 : loop_state) :
  alike st1 st2 ->
  exists s1 s2 r,
    tick e t st1 = Returns (s1, r) /\ tick e t st2 = Returns (s2, r) /\
    alike s1 s2 /\
    (cpu_read_ok (e, t) = true -> is_Some r) /\
    (cpu_read_ok (e, t) = false ->
     r = None /\ prev_cpu s1 = prev_cpu st1 /\ cpu_win s1 = cpu_win st1 /\
     mem s1 = mem st1).
Proof.
  intros (Hp & Hm & Hw).
  rewrite (cpu_read_ok_spec e t (curr_cpu st1)). unfold tick.
  destruct (read_cpu_stat_indep e (curr_cpu st1) (curr_cpu st2)) as [Hrc Hout].
  destruct (read_cpu_stat e (curr_cpu st1)) as [rc curr].
  destruct (read_cpu_stat e (curr_cpu st2)) as [rc2 curr2].
  cbn [fst] in *. subst rc2.
  destruct (Z.eqb_spec rc 0) as [E | E]; cbn [negb].
  - injection (Hout E) as ->. rewrite <- Hp, <- Hm.
    generalize (cpu_usage (prev_cpu st1) curr). intros usage.
    destruct (win_alike_add _ _ usage Hw) as (w1 & w2 & E1 & E2 & Hw').
    rewrite E1, E2. cbn [mbind outcome_bind].
    destruct (read_mem_stat_returns e (Some (mem st1))) as (r & m & Em & _).
    rewrite Em. cbn [mbind outcome_bind].
    rewrite <- (win_alike_avg w1 w2 Hw').
    pose proof (cpu_window_avg_wf w1 (proj1 Hw')) as Eavg.
    destruct (cpu_window_avg w1) as [avg_cpu| |]; try discriminate Eavg.
    cbn [mbind outcome_bind].
    eexists _, _, _. split; [reflexivity|]. split; [reflexivity|].
    split; [split; [reflexivity | split; [reflexivity | exact Hw']]|].
    split; [intros _; eexists; reflexivity | discriminate].
  - eexists _, _, _. split; [reflexivity|]. split; [reflexivity|].
    split; [split; [exact Hp | split; [exact Hm | exact Hw]]|].
    split; [discriminate | intros _; repeat split].
Qed.

Lemma loop_alike (passes : list (env * float)) :
  forall st1 st2 : loop_state,
    alike st1 st2 ->
    exists s1 s2 reps,
      loop passes st1 = Returns (s1, reps) /\
      loop passes st2 = Returns (s2, reps) /\ alike s1 s2.
Proof.
  induction passes as [|[e t] ps IH]; intros st1 st2 Ha.
  - exists st1, st2, []. repeat split; apply Ha.
  - destruct (tick_alike e t st1 st2 Ha) as (s1 & s2 & r & E1 & E2 & Ha' & _).
    destruct (IH s1 s2 Ha') as (s1' & s2' & rs & L1 & L2 & Ha'').
    cbn [loop]. rewrite E1, E2. cbn [mbind outcome_bind].
    rewrite L1, L2. cbn [mbind outcome_bind].
    eexists _, _, _. split; [reflexivity|]. split; [reflexivity | exact Ha''].
Qed.

Lemma loop_filter_alike (passes : list (env * float)) :
  forall st1 st2 : loop_state,
    alike st1 st2 ->
    exists s1 s2 reps,
      loop passes st1 = Returns (s1, reps) /\
      loop (filter cpu_read_ok passes) st2 = Returns (s2, reps) /\
      alike s1 s2.
Proof.
  induction passes as [|[e t] ps IH]; intros st1 st2 Ha.
  - exists st1, st2, []. repeat split; apply Ha.
  - destruct (tick_alike e t st1 st2 Ha)
      as (s1 & s2 & r & E1 & E2 & Ha' & Hok & Hfail).
    rewrite filter_cons. cbn [loop]. rewrite E1. cbn [mbind outcome_bind].
    destruct (cpu_read_ok (e, t)) eqn:Ok.
    + rewrite decide_True by exact I.
      destruct (IH s1 s2 Ha') as (s1' & s2' & rs & L1 & L2 & Ha'').
      cbn [loop]. rewrite E2. cbn [mbind outcome_bind].
      rewrite L1, L2. cbn [mbind outcome_bind].
      eexists _, _, _. split; [reflexivity|]. split; [reflexivity | exact Ha''].
    + rewrite decide_False by exact id.
      destruct (Hfail eq_refl) as (-> & Hp & Hw & Hm).
      assert (Hs : alike s1 st2).
      { destruct Ha as (Ap & Am & Aw).
        split; [congruence | split; [congruence | rewrite Hw; exact Aw]]. }
      destruct (IH s1 st2 Hs) as (s1' & s2' & rs & L1 & L2 & Ha'').
      rewrite L1. cbn [mbind outcome_bind].
      eexists _, _, _. split; [reflexivity|]. split; [exact L2 | exact Ha''].
Qed.

Lemma loop_count (passes : list (env * float)) :
  forall (st s : loop_state) (reps : list report),
    alike st st -> loop passes st = Returns (s, reps) ->
    length reps = length (filter cpu_read_ok passes).
Proof.
  induction passes as [|[e t] ps IH]; intros st s reps Ha.
  - cbn [loop]. intros [= _ <-]. reflexivity.
  - destruct (tick_alike e t st st Ha)
      as (s1 & s2 & r & E1 & E2 & Ha' & Hok & Hfail).
    rewrite E1 in E2. injection E2 as <-.
    destruct (loop_alike ps s1 s1 Ha') as (s1' & _ & rs & L1 & _).
    cbn [loop]. rewrite E1. cbn [mbind outcome_bind].
    rewrite L1. cbn [mbind outcome_bind]. intros [= _ <-].
    rewrite filter_cons. pose proof (IH s1 s1' rs Ha' L1) as Hn.
    destruct (cpu_read_ok (e, t)) eqn:Ok.
    + rewrite decide_True by exact I.
      destruct (Hok eq_refl) as [rep ->]. cbn [length]. rewrite Hn. reflexivity.
    + rewrite decide_False by exact id.
      destruct (Hfail eq_refl) as (-> & _). exact Hn.
Qed.

Lemma alike_refl (st : loop_state) (recent : list float) :
  wf (cpu_win st) -> holds (cpu_win st) recent -> alike st st.
Proof.
  intros Hwf Hh. split; [reflexivity|]. split; [reflexivity|].
  split; [exact Hwf|]. split; [exact Hwf|]. split; [reflexivity | eauto].
Qed.

(** X11. A pass whose [read_cpu_stat] fails leaves no trace: the loop prints
    the records it prints with these passes taken out, and leaves the same
    previous snapshot, the same memory snapshot and a window with the same
    content. *)
Theorem loop_skips_failed_passes
    (passes : list (env * float)) (st : loop_state) (recent : list float) :
  wf (cpu_win st) -> holds (cpu_win st) recent ->
  exists s1 s2 reps,
    loop passes st = Returns (s1, reps) /\
    loop (filter cpu_read_ok passes) st = Returns (s2, reps) /\
    prev_cpu s1 = prev_cpu s2 /\ mem s1 = mem s2 /\
    cpu_window_avg (cpu_win s1) = cpu_window_avg (cpu_win s2) /\
    index (cpu_win s1) = index (cpu_win s2).
Proof.
  intros Hwf Hh.
  destruct (loop_filter_alike passes st st (alike_refl st recent Hwf Hh))
    as (s1 & s2 & reps & L1 & L2 & Hp & Hm & Hw).
  exists s1, s2, reps. repeat split; try assumption.
  - apply win_alike_avg, Hw.
  - apply Hw.
Qed.

Lemma loop_skips_failed_passes_witness :
  exists s1 s2 reps,
    loop [(Samples.machine, 1%float); (mk_env 8 None None None, 2%float)]
      (mk_loop_state no_ticks no_ticks
         (cpu_window_init (mk_cpu_window (replicate 10 0%float) 0 0)) zero)
    = Returns (s1, reps) /\
    loop (filter cpu_read_ok
            [(Samples.machine, 1%float); (mk_env 8 None None None, 2%float)])
      (mk_loop_state no_ticks no_ticks
         (cpu_window_init (mk_cpu_window (replicate 10 0%float) 0 0)) zero)
    = Returns (s2, reps) /\
    prev_cpu s1 = prev_cpu s2 /\ mem s1 = mem s2 /\
    cpu_window_avg (cpu_win s1) = cpu_window_avg (cpu_win s2) /\
    index (cpu_win s1) = index (cpu_win s2).
Proof.
  apply (loop_skips_failed_passes _ _ []);
    apply (cpu_window_init_holds (mk_cpu_window (replicate 10 0%float) 0 0));
    reflexivity.
Defined.

(** X12. In a pass where /proc/meminfo does not open (and /proc/stat is
    read), the stored snapshot is set to zero, whatever it held: the record
    shows 0 for the four memory figures and the state "ok". *)
Theorem tick_meminfo_unopened (e : env) (t : float) (st : loop_state) :
  wf (cpu_win st) -> proc_meminfo e = None -> cpu_read_ok (e, t) = true ->
  exists st' r,
    tick e t st = Returns (st', Some r) /\
    mem st' = zero /\
    mem_used r = 0%float /\ mem_avail r = 0%float /\
    mem_swap_used r = 0%float /\ mem_swap_avail r = 0%float /\
    MEM_STATE r = "ok"%string.
Proof.
  intros Hwf Hf Hok. rewrite (cpu_read_ok_spec e t (curr_cpu st)) in Hok.
  unfold tick.
  destruct (read_cpu_stat e (curr_cpu st)) as [rc curr]. cbn [fst] in Hok.
  rewrite Hok. cbn [negb].
  generalize (cpu_usage (prev_cpu st) curr). intros usage.
  destruct (cpu_window_add_wf (cpu_win st) usage Hwf) as (win & Ea & Hwin).
  rewrite Ea. cbn [mbind outcome_bind].
  unfold read_mem_stat. rewrite Hf. cbn [mbind outcome_bind default].
  pose proof (cpu_window_avg_wf win Hwin) as Eavg.
  destruct (cpu_window_avg win) as [avg_cpu| |]; try discriminate Eavg.
  cbn [mbind outcome_bind].
  eexists _, _. split; [reflexivity|]. cbn [mem].
  split; [reflexivity|]. vm_compute. repeat split.
Qed.

Lemma tick_meminfo_unopened_witness :
  exists st' r,
    tick (mk_env 8 None (Some Samples.stat) None) 1%float
      (mk_loop_state no_ticks no_ticks
         (cpu_window_init (mk_cpu_window (replicate 10 0%float) 0 0))
         (mk_mem_stat 4194304 2097152 2097152 1048576))
    = Returns (st', Some r) /\
    mem st' = zero /\
    mem_used r = 0%float /\ mem_avail r = 0%float /\
    mem_swap_used r = 0%float /\ mem_swap_avail r = 0%float /\
    MEM_STATE r = "ok"%string.
Proof.
  apply tick_meminfo_unopened.
  - apply (cpu_window_init_holds (mk_cpu_window (replicate 10 0%float) 0 0)).
    reflexivity.
  - reflexivity.
  - vm_compute. reflexivity.
Defined.

(** ** Start-up *)

(** X13. When the frequency file holds a decimal number, [read_cpu_capacity]
    returns 0 with that number as the maximal frequency ([LONG_MAX] beyond
    it) and with the answer of the processor-count query as core count, 1
    when the answer is below 1; nothing is printed, and nothing of what the
    structure held before is left. *)
Theorem read_cpu_capacity_text
    (e : env) (c : cpu_capacity) (n : N) (tail : string) :
  cpuinfo_max_freq e = Some (Render.dec n ++ tail)%string ->
  Render.no_digit_ahead tail = true ->
  nprocessors_onln e <= 2 ^ 31 - 1 ->
  read_cpu_capacity e (Some c) =
    Returns (0, Some {| cores := Z.max 1 (nprocessors_onln e);
                        max_freq_khz := Z.min (Z.of_N n) LONG_MAX |}, []).
Proof.
  intros Hf Ht Hn. unfold read_cpu_capacity. rewrite Hf.
  assert (F : fscanf fmt_freq (Render.dec n ++ tail)
              = (1, [VLong (clamp_long (Z.of_N n))], tail)).
  { unfold fscanf, fmt_freq.
    pose proof (run_long_dec 0 n [] tail [] Ht) as R.
    change (Render.spaces 0 ++ Render.dec n ++ tail)%string
      with (Render.dec n ++ tail)%string in R.
    rewrite R. reflexivity. }
  rewrite F. cbn [fclose mbind outcome_bind cores].
  assert (Hc : wrap32 (if nprocessors_onln e <? 1 then 1 else nprocessors_onln e)
               = Z.max 1 (nprocessors_onln e)).
  { unfold wrap32. destruct (Z.ltb_spec (nprocessors_onln e) 1);
      rewrite Z.mod_small; lia. }
  rewrite Hc. repeat f_equal. unfold clamp_long, LONG_MIN, LONG_MAX. lia.
Qed.

Lemma read_cpu_capacity_text_witness :
  read_cpu_capacity
    (mk_env 0 (Some ("3400000" ++ Samples.nl)%string) None None)
    (Some (mk_cpu_capacity 77 77))
  = Returns (0, Some (mk_cpu_capacity 1 3400000), []).
Proof.
  apply (read_cpu_capacity_text
           (mk_env 0 (Some ("3400000" ++ Samples.nl)%string) None None)
           (mk_cpu_capacity 77 77) 3400000 Samples.nl);
    [reflexivity | reflexivity | cbn; lia].
Defined.

Lemma read_cpu_capacity_fresh (e : env) (f : string) :
  cpuinfo_max_freq e = Some f ->
  exists cap, forall c,
    read_cpu_capacity e (Some c) = Returns (0, Some cap, []).
Proof.
  intros Hf. unfold read_cpu_capacity. rewrite Hf.
  eexists. intros c. reflexivity.
Qed.

Lemma read_mem_stat_fresh (e : env) :
  exists r m, forall c, read_mem_stat e (Some c) = Returns (r, Some m).
Proof.
  destruct (proc_meminfo e) as [f|] eqn:Hf.
  - eexists _, _. intros c. exact (read_mem_stat_open e c f Hf).
  - exists (-1), zero. intros c. unfold read_mem_stat. rewrite Hf. reflexivity.
Qed.

(** X14. [main] gets past its start-up exactly when the frequency file
    opens: without the file it runs into [fclose(NULL)] before any record.
    With the file it returns 0 after the last pass, with one record for each
    pass whose [read_cpu_stat] succeeded, and neither the start-up output
    nor the records depend on what the local variables [cap], [mem] and
    [cpu_win] held before they were written. *)
Theorem main_outcome
    (e0 : env) (cap0 : cpu_capacity) (mem0 : mem_stat) (win0 : cpu_window)
    (passes : list (env * float)) :
  length (samples win0) = 10%nat ->
  (cpuinfo_max_freq e0 = None ->
   main e0 cap0 mem0 win0 passes = Undefined) /\
  (is_Some (cpuinfo_max_freq e0) ->
   exists s recs,
     main e0 cap0 mem0 win0 passes = Returns (0, s, recs) /\
     length recs = length (filter cpu_read_ok passes) /\
     forall cap0' mem0' win0',
       length (samples win0') = 10%nat ->
       main e0 cap0' mem0' win0' passes = Returns (0, s, recs)).
Proof.
  intros Hlen. split.
  - intros Hf. unfold main, read_cpu_capacity. rewrite Hf. reflexivity.
  - intros [f Hf]. unfold main.
    destruct (read_cpu_capacity_fresh e0 f Hf) as (cap & Hcap).
    destruct (read_mem_stat_fresh e0) as (r & m & Hmem).
    destruct (read_cpu_stat e0 no_ticks) as [rc prev].
    set (st := fun w => {| prev_cpu := prev; curr_cpu := no_ticks;
                           cpu_win := cpu_window_init w; mem := m |}).
    destruct (cpu_window_init_holds win0 Hlen) as [Hwf Hh].
    assert (Ha0 : alike (st win0) (st win0))
      by exact (alike_refl (st win0) [] Hwf Hh).
    destruct (loop_alike passes _ _ Ha0) as (st' & _ & recs & El & _).
    pose proof (loop_count passes _ _ _ Ha0 El) as Hn.
    eexists _, recs. split; [|split; [exact Hn|]].
    + rewrite Hcap. cbn [mbind outcome_bind default from_option id].
      rewrite Hmem. cbn [mbind outcome_bind default from_option id].
      cbv beta delta [st] in El. rewrite El. reflexivity.
    + intros cap0' mem0' win0' Hlen'.
      destruct (cpu_window_init_holds win0' Hlen') as [Hwf' Hh'].
      assert (Ha : alike (st win0') (st win0)).
      { split; [reflexivity|]. split; [reflexivity|].
        split; [exact Hwf'|]. split; [exact Hwf|].
        split; [reflexivity | exists []; split; assumption]. }
      destruct (loop_alike passes _ _ Ha) as (s1 & s2 & rs & L1 & L2 & _).
      rewrite El in L2. injection L2 as <- <-.
      rewrite Hcap. cbn [mbind outcome_bind default from_option id].
      rewrite Hmem. cbn [mbind outcome_bind default from_option id].
      cbv beta delta [st] in L1. rewrite L1. reflexivity.
Qed.

Lemma main_outcome_witness :
  main Samples.machine (mk_cpu_capacity 0 0) zero
    (mk_cpu_window (replicate 10 0%float) 0 0) []
  = Undefined.
Proof.
  apply (proj1 (main_outcome Samples.machine (mk_cpu_capacity 0 0) zero
                  (mk_cpu_window (replicate 10 0%float) 0 0) [] eq_refl)).
  reflexivity.
Defined.

(** ** Labels *)

(** X15. The labels of the three states differ: the label in a record tells
    the state. *)
Theorem sys_state_str_inj (s1 s2 : sys_state) :
  sys_state_str s1 = sys_state_str s2 -> s1 = s2.
Proof. destruct s1, s2; intros H; (reflexivity || discriminate H). Qed.

Lemma sys_state_str_inj_witness : SYS_WARN = SYS_WARN.
Proof. apply sys_state_str_inj. reflexivity. Defined.

(** ** From the files to the record *)


